(** * ShearPoint signaling servers: a shallow embedding

    The repository holds two Node.js servers.  [src/server.js] keeps a
    registry [connectedPeers] of WebSocket connections next to a table
    [deviceInfo] of self-reported devices and forwards offer / answer /
    ice-candidate messages.  The second server keeps a registry
    [connectedDevices] keyed by a client-supplied id, answers heartbeats,
    sweeps silent devices on a timer and harvests UDP announcements into
    [discoveryClients].

    Both are embedded as state transformers over an explicit [world]: the
    module-level Maps, the [readyState] of every socket, the listeners that
    the connection handler registered, the log of calls made on sockets and
    the number of clock readings taken so far.  Of the browser client, which
    lives in the DOM, the pure function [escapeHtml] is embedded. *)

From Stdlib Require Import ssreflect ZArith Lia.
From stdpp Require Import base strings list gmap pretty.

Set Warnings "-register-all,-rewrite-rw".
Open Scope general_if_scope.
Open Scope Z_scope.

(** ** JSON values, as produced by [JSON.parse]

    A number is kept as its canonical rendering ([Number::toString]); the
    servers never compute with a number that came from a client, they only
    test it for truthiness and paste it into strings. *)

Inductive JSON : Type :=
| JNull
| JBool (b : bool)
| JNum (repr : string)
| JStr (s : string)
| JArr (items : list JSON)
| JObj (fields : list (string * JSON)).

(** A JS expression evaluates to a JSON value or to [undefined]. *)
Abbreviation jsval := (option JSON).
Abbreviation undefined := (@None JSON).

Definition JInt (z : Z) : JSON := JNum (pretty z).

(** Own-property lookup in an object literal or a parsed object. *)
Fixpoint obj_get (k : string) (fs : list (string * JSON)) : jsval :=
  match fs with
  | [] => undefined
  | (k', v) :: rest => if String.eqb k k' then Some v else obj_get k rest
  end.

(** Assignment of a property: an existing key keeps its position. *)
Fixpoint obj_set (k : string) (v : JSON) (fs : list (string * JSON))
  : list (string * JSON) :=
  match fs with
  | [] => [(k, v)]
  | (k', v') :: rest =>
      if String.eqb k k' then (k, v) :: rest else (k', v') :: obj_set k v rest
  end.

Definition obj_keys (fs : list (string * JSON)) : list string := fs.*1.

(** [v.k] for a value that is neither [null] nor [undefined].  None of the
    property names read by the servers exists on the prototype of a string,
    a number, a boolean or an array, so only objects can answer. *)
Definition get_prop (v : JSON) (k : string) : jsval :=
  match v with
  | JObj fs => obj_get k fs
  | _ => undefined
  end.

(** [v?.k] *)
Definition get_prop_opt (v : jsval) (k : string) : jsval :=
  match v with
  | Some (JObj fs) => obj_get k fs
  | _ => undefined
  end.

(** [v === 'literal'] *)
Definition is_str (v : jsval) (s : string) : bool :=
  match v with
  | Some (JStr x) => String.eqb x s
  | _ => false
  end.

(** ToBoolean.  The rendering of a JSON number is "0" exactly for zero. *)
Definition truthy (v : jsval) : bool :=
  match v with
  | None => false
  | Some JNull => false
  | Some (JBool b) => b
  | Some (JNum r) => negb (String.eqb r "0")
  | Some (JStr s) => negb (String.eqb s EmptyString)
  | Some (JArr _) => true
  | Some (JObj _) => true
  end.

(** [a || b] where [b] is always defined. *)
Definition js_or (a : jsval) (b : JSON) : JSON :=
  match a with
  | Some v => if truthy a then v else b
  | None => b
  end.

Definition join_comma (parts : list string) : string :=
  match parts with
  | [] => EmptyString
  | p :: ps => fold_left (fun acc q => acc +:+ "," +:+ q) ps p
  end.

(** ToString, as applied by a template literal. *)
Fixpoint to_string (v : JSON) : string :=
  match v with
  | JNull => "null"
  | JBool true => "true"
  | JBool false => "false"
  | JNum r => r
  | JStr s => s
  | JArr items =>
      join_comma
        ((fix elems (l : list JSON) : list string :=
            match l with
            | [] => []
            | JNull :: l' => EmptyString :: elems l'
            | x :: l' => to_string x :: elems l'
            end) items)
  | JObj _ => "[object Object]"
  end.

Definition template (v : jsval) : string :=
  match v with
  | None => "undefined"
  | Some j => to_string j
  end.

Fixpoint chars_from (i : nat) (s : string) : list (string * JSON) :=
  match s with
  | EmptyString => []
  | String c s' => (pretty i, JStr (String c EmptyString)) :: chars_from (S i) s'
  end.

(** The own enumerable properties copied by [{...v}]. *)
Definition spread (v : jsval) : list (string * JSON) :=
  match v with
  | Some (JObj fs) => fs
  | Some (JArr items) => imap (fun i x => (pretty i, x)) items
  | Some (JStr s) => chars_from 0 s
  | _ => []
  end.

(** ** Sockets *)

Definition handle := nat.

Inductive ReadyState := CONNECTING | OPEN | CLOSING | CLOSED.

#[global] Instance ReadyState_eq_dec : EqDecision ReadyState.
Proof. solve_decision. Defined.

Definition is_open (rs : gmap handle ReadyState) (h : handle) : bool :=
  bool_decide (rs !! h = Some OPEN).

(** [ws.close()]: an open socket starts its closing handshake; a socket
    that is closing or closed stays as it is. *)
Definition ws_close (h : handle) (rs : gmap handle ReadyState)
  : gmap handle ReadyState :=
  match rs !! h with
  | Some OPEN => <[h := CLOSING]> rs
  | _ => rs
  end.

(** ** Insertion-ordered Maps

    A JS [Map] iterates in insertion order and [set] on a present key keeps
    the key where it is, so a Map is an association list without repeated
    keys. *)

Module JSMap.
Section Defs.
Context {K V : Type} `{EqDecision K}.

Fixpoint get (k : K) (m : list (K * V)) : option V :=
  match m with
  | [] => None
  | (k', v) :: rest => if decide (k = k') then Some v else get k rest
  end.

Definition has (k : K) (m : list (K * V)) : bool :=
  match get k m with Some _ => true | None => false end.

Fixpoint set (k : K) (v : V) (m : list (K * V)) : list (K * V) :=
  match m with
  | [] => [(k, v)]
  | (k', v') :: rest =>
      if decide (k = k') then (k, v) :: rest else (k', v') :: set k v rest
  end.

Fixpoint delete (k : K) (m : list (K * V)) : list (K * V) :=
  match m with
  | [] => []
  | (k', v') :: rest =>
      if decide (k = k') then delete k rest else (k', v') :: delete k rest
  end.

Definition keys (m : list (K * V)) : list K := m.*1.
Definition values (m : list (K * V)) : list V := m.*2.
Definition size (m : list (K * V)) : nat := length m.

(** The well-formedness every Map built by [set] and [delete] has. *)
Definition wf (m : list (K * V)) : Prop := NoDup (keys m).

End Defs.
End JSMap.

(** ** State transformers *)

Definition M (W A : Type) : Type := W -> A * W.

Definition ret {W A} (a : A) : M W A := fun w => (a, w).

Definition bind {W A B} (m : M W A) (k : A -> M W B) : M W B :=
  fun w => let (a, w') := m w in k a w'.

Definition gets {W A} (f : W -> A) : M W A := fun w => (f w, w).

Definition modify {W} (f : W -> W) : M W unit := fun w => (tt, f w).

Definition exec {W A} (m : M W A) (w : W) : W := (m w).2.

Declare Scope prog_scope.
Delimit Scope prog_scope with prog.
Notation "x <- m ;; k" := (bind m (fun x => k))
  (at level 100, m at next level, right associativity) : prog_scope.
Notation "m ;; k" := (bind m (fun _ => k))
  (at level 100, right associativity) : prog_scope.

(** [l.forEach(f)] *)
Fixpoint forEach {W A} (l : list A) (f : A -> M W unit) : M W unit :=
  match l with
  | [] => ret tt
  | x :: rest => bind (f x) (fun _ => forEach rest f)
  end.

(** What a handler that runs inside [try] hands to the [catch]. *)
Inductive outcome := Returned | Thrown.

(** ** The runtime the servers call into

    [Date_now k] is the value of the [k]-th reading of the system clock
    since start-up, [Math_random k] the text that
    [Math.random().toString(36).substr(2, 9)] yields at the [k]-th draw. *)

Class Runtime := {
  Date_now : nat -> Z;
  toISOString : Z -> string;
  Math_random : nat -> string;
  getLocalIPAddress : string
}.

(** * src/server.js *)

Module Server.
Section Program.
Context `{Runtime}.

Definition PORT : Z := 3000.

Record Device := {
  d_id : string;
  d_name : JSON;
  d_type : JSON;
  d_capabilities : JSON;
  d_registeredAt : string
}.

Record peer := {
  peer_ws : handle;
  peer_connectedAt : Z;
  peer_peerId : string;
  peer_device : option Device
}.

(** [peer.device = device] *)
Definition attach (d : Device) (p : peer) : peer :=
  {| peer_ws := peer_ws p; peer_connectedAt := peer_connectedAt p;
     peer_peerId := peer_peerId p; peer_device := Some d |}.

(** Calls the server makes on a socket or on an HTTP response. *)
Inductive action :=
  | Send (h : handle) (msg : JSON)
  | Close (h : handle)
  | Respond (status : Z) (body : JSON).

Record world := {
  connectedPeers : list (string * peer);
  deviceInfo : list (string * Device);
  readyState : gmap handle ReadyState;
  listeners : gmap handle string;
  outbox : list action;
  clock_reads : nat;
  random_reads : nat
}.

Definition init : world :=
  {| connectedPeers := []; deviceInfo := []; readyState := ∅;
     listeners := ∅; outbox := []; clock_reads := 0; random_reads := 0 |}.

Definition with_connectedPeers (f : list (string * peer) -> list (string * peer))
  (w : world) : world :=
  {| connectedPeers := f (connectedPeers w); deviceInfo := deviceInfo w;
     readyState := readyState w; listeners := listeners w;
     outbox := outbox w; clock_reads := clock_reads w;
     random_reads := random_reads w |}.

Definition with_deviceInfo (f : list (string * Device) -> list (string * Device))
  (w : world) : world :=
  {| connectedPeers := connectedPeers w; deviceInfo := f (deviceInfo w);
     readyState := readyState w; listeners := listeners w;
     outbox := outbox w; clock_reads := clock_reads w;
     random_reads := random_reads w |}.

Definition with_readyState (f : gmap handle ReadyState -> gmap handle ReadyState)
  (w : world) : world :=
  {| connectedPeers := connectedPeers w; deviceInfo := deviceInfo w;
     readyState := f (readyState w); listeners := listeners w;
     outbox := outbox w; clock_reads := clock_reads w;
     random_reads := random_reads w |}.

Definition with_listeners (f : gmap handle string -> gmap handle string)
  (w : world) : world :=
  {| connectedPeers := connectedPeers w; deviceInfo := deviceInfo w;
     readyState := readyState w; listeners := f (listeners w);
     outbox := outbox w; clock_reads := clock_reads w;
     random_reads := random_reads w |}.

Definition with_outbox (f : list action -> list action) (w : world) : world :=
  {| connectedPeers := connectedPeers w; deviceInfo := deviceInfo w;
     readyState := readyState w; listeners := listeners w;
     outbox := f (outbox w); clock_reads := clock_reads w;
     random_reads := random_reads w |}.

Definition with_clock_reads (f : nat -> nat) (w : world) : world :=
  {| connectedPeers := connectedPeers w; deviceInfo := deviceInfo w;
     readyState := readyState w; listeners := listeners w;
     outbox := outbox w; clock_reads := f (clock_reads w);
     random_reads := random_reads w |}.

Definition with_random_reads (f : nat -> nat) (w : world) : world :=
  {| connectedPeers := connectedPeers w; deviceInfo := deviceInfo w;
     readyState := readyState w; listeners := listeners w;
     outbox := outbox w; clock_reads := clock_reads w;
     random_reads := f (random_reads w) |}.

(** [Date.now()] / [new Date()] *)
Definition now : M world Z := fun w =>
  (Date_now (clock_reads w), with_clock_reads S w).

(** [new Date().toISOString()] *)
Definition now_iso : M world string :=
  (t <- now ;; ret (toISOString t))%prog.

Definition random : M world string := fun w =>
  (Math_random (random_reads w), with_random_reads S w).

(** [ws.send(JSON.stringify(msg))]: the call is recorded with the value
    that is serialised. *)
Definition send (h : handle) (msg : JSON) : M world unit :=
  modify (with_outbox (fun o => o ++ [Send h msg])).

Definition respond (status : Z) (body : JSON) : M world unit :=
  modify (with_outbox (fun o => o ++ [Respond status body])).

(** [ws.close()] *)
Definition close (h : handle) : M world unit :=
  (modify (with_readyState (ws_close h)) ;;
   modify (with_outbox (fun o => o ++ [Close h])))%prog.

(** A console line that prints the current time reads the clock. *)
Definition log_with_time : M world unit := (_ <- now_iso ;; ret tt)%prog.

Definition generateDeviceId : M world string :=
  (t <- now ;;
   r <- random ;;
   ret ("device-" +:+ pretty t +:+ "-" +:+ r))%prog.

Definition device_json (d : Device) : JSON :=
  JObj [("id", JStr (d_id d)); ("name", d_name d); ("type", d_type d);
        ("capabilities", d_capabilities d);
        ("registeredAt", JStr (d_registeredAt d))].

Definition device_or_null (d : option Device) : JSON :=
  match d with Some d => device_json d | None => JNull end.

(** [peer?.ws.readyState === WebSocket.OPEN] *)
Definition peer_open (w : world) (p : option peer) : bool :=
  match p with
  | Some p => is_open (readyState w) (peer_ws p)
  | None => false
  end.

(** [connectedPeers.get(v)] for a value taken out of a message: the keys
    are strings, so only a string can hit. *)
Definition get_peer (w : world) (v : jsval) : option peer :=
  match v with
  | Some (JStr k) => JSMap.get k (connectedPeers w)
  | _ => None
  end.

Definition peer_update_message (w : world) (timestamp : string) : JSON :=
  JObj [("type", JStr "peer-update");
        ("devices", JArr (device_json <$> JSMap.values (deviceInfo w)));
        ("totalConnected", JInt (Z.of_nat (JSMap.size (connectedPeers w))));
        ("timestamp", JStr timestamp)].

Definition broadcastPeerUpdate : M world unit :=
  (timestamp <- now_iso ;;
   message <- gets (fun w => peer_update_message w timestamp) ;;
   peers <- gets (fun w => JSMap.values (connectedPeers w)) ;;
   forEach peers (fun p =>
     open <- gets (fun w => is_open (readyState w) (peer_ws p)) ;;
     if open : bool then send (peer_ws p) message else ret tt))%prog.

(** The object literal [device] of [handleDeviceRegistration]. *)
Definition build_device (peerId : string) (deviceData : jsval)
  (registeredAt : string) : Device :=
  {| d_id := peerId;
     d_name := js_or (get_prop_opt deviceData "name")
                 (JStr ("Device-" +:+ String.substring 0 8 peerId));
     d_type := js_or (get_prop_opt deviceData "type") (JStr "unknown");
     d_capabilities := js_or (get_prop_opt deviceData "capabilities") (JArr []);
     d_registeredAt := registeredAt |}.

Definition handleDeviceRegistration (peerId : string) (deviceData : jsval)
  : M world unit :=
  (registeredAt <- now_iso ;;
   let device := build_device peerId deviceData registeredAt in
   modify (with_deviceInfo (JSMap.set peerId device)) ;;
   p <- gets (fun w => JSMap.get peerId (connectedPeers w)) ;;
   match p with
   | Some p => modify (with_connectedPeers (JSMap.set peerId (attach device p)))
   | None => ret tt
   end ;;
   broadcastPeerUpdate ;;
   peerConn <- gets (fun w => JSMap.get peerId (connectedPeers w)) ;;
   open <- gets (fun w => peer_open w peerConn) ;;
   match peerConn with
   | Some pc =>
       if open : bool then
         send (peer_ws pc)
           (JObj [("type", JStr "device-registered");
                  ("device", device_json device)])
       else ret tt
   | None => ret tt
   end)%prog.

Definition handleDiscoveryRequest (peerId : string) : M world unit :=
  (discoveredDevices <- gets (fun w =>
      filter (fun d => d_id d <> peerId) (JSMap.values (deviceInfo w))) ;;
   peerConn <- gets (fun w => JSMap.get peerId (connectedPeers w)) ;;
   open <- gets (fun w => peer_open w peerConn) ;;
   match peerConn with
   | Some pc =>
       if open : bool then
         discoveredAt <- now_iso ;;
         send (peer_ws pc)
           (JObj [("type", JStr "discovery-response");
                  ("devices", JArr (device_json <$> discoveredDevices));
                  ("discoveredAt", JStr discoveredAt)])
       else ret tt
   | None => ret tt
   end)%prog.

Definition unavailable (targetPeerId : jsval) : JSON :=
  JObj [("type", JStr "error");
        ("error", JStr ("Target peer '" +:+ template targetPeerId
                        +:+ "' is not available"))].

(** [{...data, fromPeerId, forwardedAt}] *)
Definition forwarded (data : JSON) (fromPeerId forwardedAt : string) : JSON :=
  JObj (obj_set "forwardedAt" (JStr forwardedAt)
          (obj_set "fromPeerId" (JStr fromPeerId) (spread (Some data)))).

Definition forwardSignalingMessage (fromPeerId : string) (targetPeerId : jsval)
  (data : JSON) : M world unit :=
  (targetPeer <- gets (fun w => get_peer w targetPeerId) ;;
   targetOpen <- gets (fun w => peer_open w targetPeer) ;;
   if negb targetOpen then
     sourcePeer <- gets (fun w => JSMap.get fromPeerId (connectedPeers w)) ;;
     sourceOpen <- gets (fun w => peer_open w sourcePeer) ;;
     match sourcePeer with
     | Some sp =>
         if sourceOpen : bool then send (peer_ws sp) (unavailable targetPeerId)
         else ret tt
     | None => ret tt
     end
   else
     match targetPeer with
     | Some tp =>
         forwardedAt <- now_iso ;;
         send (peer_ws tp) (forwarded data fromPeerId forwardedAt)
     | None => ret tt
     end)%prog.

Definition peer_json (p : peer) : JSON :=
  JObj [("peerId", JStr (peer_peerId p));
        ("device", device_or_null (peer_device p));
        ("connectedAt", JStr (toISOString (peer_connectedAt p)))].

Definition sendPeerList (peerId : string) : M world unit :=
  (peerConn <- gets (fun w => JSMap.get peerId (connectedPeers w)) ;;
   open <- gets (fun w => peer_open w peerConn) ;;
   match peerConn with
   | Some pc =>
       if open : bool then
         peers <- gets (fun w =>
           peer_json <$> filter (fun p => peer_peerId p <> peerId)
                           (JSMap.values (connectedPeers w))) ;;
         timestamp <- now_iso ;;
         send (peer_ws pc)
           (JObj [("type", JStr "peer-list");
                  ("peers", JArr peers);
                  ("totalPeers", JInt (Z.of_nat (length peers)));
                  ("timestamp", JStr timestamp)])
       else ret tt
   | None => ret tt
   end)%prog.

(** Destructuring [null] throws; every other parsed value is dispatched on
    its [type]. *)
Definition handleSignalingMessage (peerId : string) (data : JSON)
  : M world outcome :=
  match data with
  | JNull => ret Thrown
  | _ =>
      let type := get_prop data "type" in
      let targetPeerId := get_prop data "targetPeerId" in
      let payload := get_prop data "payload" in
      ((if is_str type "register-device" then
          handleDeviceRegistration peerId payload
        else if is_str type "discovery-request" then
          handleDiscoveryRequest peerId
        else if is_str type "offer" || is_str type "answer"
                || is_str type "ice-candidate" then
          forwardSignalingMessage peerId targetPeerId data
        else if is_str type "peer-list-request" then
          sendPeerList peerId
        else ret tt) ;;
       ret Returned)%prog
  end.

Definition welcome (peerId serverTime : string) : JSON :=
  JObj [("type", JStr "welcome");
        ("peerId", JStr peerId);
        ("serverTime", JStr serverTime);
        ("serverAddress", JStr getLocalIPAddress);
        ("port", JInt PORT)].

Definition invalid_format : JSON :=
  JObj [("type", JStr "error"); ("error", JStr "Invalid message format")].

(** The listener [ws.on('message', ...)]; [raw] is [None] when
    [JSON.parse] throws. *)
Definition on_message (h : handle) (peerId : string) (raw : option JSON)
  : M world unit :=
  (r <- match raw with
        | Some data => handleSignalingMessage peerId data
        | None => ret Thrown
        end ;;
   match r with
   | Returned => ret tt
   | Thrown => send h invalid_format
   end)%prog.

(** The listener [ws.on('close', ...)]. *)
Definition on_close (peerId : string) : M world unit :=
  (log_with_time ;;
   modify (with_connectedPeers (JSMap.delete peerId)) ;;
   modify (with_deviceInfo (JSMap.delete peerId)) ;;
   broadcastPeerUpdate)%prog.

(** [wss.on('connection', ...)] *)
Definition on_connection (h : handle) : M world unit :=
  (peerId <- generateDeviceId ;;
   log_with_time ;;
   connectedAt <- now ;;
   modify (with_connectedPeers
     (JSMap.set peerId
        {| peer_ws := h; peer_connectedAt := connectedAt;
           peer_peerId := peerId; peer_device := None |})) ;;
   serverTime <- now_iso ;;
   send h (welcome peerId serverTime) ;;
   modify (with_listeners <[h := peerId]>) ;;
   broadcastPeerUpdate)%prog.

(** [app.post('/api/devices', ...)]; the body parser hands over an object. *)
Definition post_device (body : JSON) : M world unit :=
  let name := get_prop body "name" in
  let type := get_prop body "type" in
  let capabilities := get_prop body "capabilities" in
  match name, type with
  | Some n, Some t =>
      if truthy name && truthy type then
        (deviceId <- generateDeviceId ;;
         registeredAt <- now_iso ;;
         let device :=
           {| d_id := deviceId; d_name := n; d_type := t;
              d_capabilities := js_or capabilities (JArr []);
              d_registeredAt := registeredAt |} in
         modify (with_deviceInfo (JSMap.set deviceId device)) ;;
         broadcastPeerUpdate ;;
         timestamp <- now_iso ;;
         respond 201
           (JObj [("message", JStr "Device registered");
                  ("device", device_json device);
                  ("timestamp", JStr timestamp)]))%prog
      else
        respond 400 (JObj [("error", JStr "Device name and type are required")])
  | _, _ =>
      respond 400 (JObj [("error", JStr "Device name and type are required")])
  end.

(** [app.delete('/api/devices/:deviceId', ...)] *)
Definition delete_device (deviceId : string) : M world unit :=
  (known <- gets (fun w => JSMap.has deviceId (deviceInfo w)) ;;
   if known : bool then
     modify (with_deviceInfo (JSMap.delete deviceId)) ;;
     p <- gets (fun w => JSMap.get deviceId (connectedPeers w)) ;;
     open <- gets (fun w => peer_open w p) ;;
     match p with
     | Some p => if open : bool then close (peer_ws p) else ret tt
     | None => ret tt
     end ;;
     broadcastPeerUpdate ;;
     timestamp <- now_iso ;;
     respond 200
       (JObj [("message", JStr "Device deleted");
              ("deviceId", JStr deviceId);
              ("timestamp", JStr timestamp)])
   else
     respond 404 (JObj [("error", JStr "Device not found");
                        ("deviceId", JStr deviceId)]))%prog.

(** What reaches the process: a new socket, a frame on a socket, the
    [close] event of a socket, and the two mutating HTTP requests. *)
Inductive event :=
  | Connection (h : handle)
  | Message (h : handle) (raw : option JSON)
  | Closed (h : handle)
  | PostDevice (body : JSON)
  | DeleteDevice (deviceId : string).

(** One turn of the event loop.  The socket library has put the socket in
    its new state before the listener runs. *)
Definition step (ev : event) : M world unit :=
  match ev with
  | Connection h =>
      (modify (with_readyState <[h := OPEN]>) ;; on_connection h)%prog
  | Message h raw =>
      (l <- gets (fun w => listeners w !! h) ;;
       match l with
       | Some peerId => on_message h peerId raw
       | None => ret tt
       end)%prog
  | Closed h =>
      (modify (with_readyState <[h := CLOSED]>) ;;
       l <- gets (fun w => listeners w !! h) ;;
       match l with
       | Some peerId => on_close peerId
       | None => ret tt
       end)%prog
  | PostDevice body => post_device body
  | DeleteDevice deviceId => delete_device deviceId
  end.

Fixpoint run (evs : list event) (w : world) : world :=
  match evs with
  | [] => w
  | ev :: rest => run rest (exec (step ev) w)
  end.

(** The id the next call of [generateDeviceId] returns. *)
Definition next_id (w : world) : string := (generateDeviceId w).1.


(** The snapshot every fan-out serialises. *)
Definition snapshot (w : world) : list Device := JSMap.values (deviceInfo w).

(** *** Vocabulary of the statements *)

(** The sends of one fan-out: the same message to every entry of the
    registry whose socket is open, in registry order. *)
Definition fanout (w : world) (message : JSON) : list action :=
  (fun p => Send (peer_ws p) message)
    <$> filter (fun p => is_open (readyState w) (peer_ws p) = true)
          (JSMap.values (connectedPeers w)).

(** The three message types that are forwarded. *)
Definition forwardable (data : JSON) : bool :=
  is_str (get_prop data "type") "offer"
  || is_str (get_prop data "type") "answer"
  || is_str (get_prop data "type") "ice-candidate".






(** The POST is accepted when [name] and [type] are truthy. *)
Definition accepted (body : JSON) : bool :=
  truthy (get_prop body "name") && truthy (get_prop body "type").






End Program.
End Server.

(** * The second server (heartbeats, sweeps, LAN discovery) *)

(** Keys of a Map are compared by SameValueZero: primitives by value, an
    object or an array by identity.  [KRef r] is the identity of the [r]-th
    object that was used as a key. *)
Inductive jskey :=
| KUndefined
| KNull
| KBool (b : bool)
| KNum (repr : string)
| KStr (s : string)
| KRef (r : nat).

#[global] Instance jskey_eq_dec : EqDecision jskey.
Proof. solve_decision. Defined.

Definition key_of (v : jsval) (r : nat) : jskey :=
  match v with
  | None => KUndefined
  | Some JNull => KNull
  | Some (JBool b) => KBool b
  | Some (JNum n) => KNum n
  | Some (JStr s) => KStr s
  | Some (JArr _) | Some (JObj _) => KRef r
  end.

Definition is_reference (v : jsval) : bool :=
  match v with
  | Some (JArr _) | Some (JObj _) => true
  | _ => false
  end.

(** [JSON.stringify] leaves out a property whose value is [undefined]. *)
Fixpoint stringify_fields (fs : list (string * jsval)) : list (string * JSON) :=
  match fs with
  | [] => []
  | (k, Some v) :: rest => (k, v) :: stringify_fields rest
  | (_, None) :: rest => stringify_fields rest
  end.

Module Server2.
Section Program.
Context `{Runtime}.

Definition DEVICE_TIMEOUT : Z := 30000.

(** The value stored in [connectedDevices]. *)
Record deviceInfo := {
  di_id : JSON;
  di_name : JSON;
  di_type : JSON;
  di_capabilities : JSON;
  di_ws : handle;
  di_connectedAt : Z;
  di_lastHeartbeat : Z
}.

(** The value stored in [discoveryClients]: the announced device's own
    properties, over which [lastSeen] and [address] are written. *)
Record DiscoveryRecord := {
  dr_device : list (string * JSON);
  dr_lastSeen : Z;
  dr_address : string
}.

Record rinfo := { ri_address : string; ri_port : Z }.

Inductive action :=
  | Send (h : handle) (msg : JSON)
  | Close (h : handle) (code : Z) (reason : string)
  | Datagram (address : string) (msg : JSON).

Record world := {
  connectedDevices : list (jskey * deviceInfo);
  discoveryClients : list (jskey * DiscoveryRecord);
  offerCache : list (jskey * (jsval * Z));
  clients : list handle;
  readyState : gmap handle ReadyState;
  ws_deviceId : gmap handle (JSON * jskey);
  advertised : JSON;
  outbox : list action;
  clock_reads : nat;
  next_ref : nat
}.

Definition init (self : JSON) : world :=
  {| connectedDevices := []; discoveryClients := []; offerCache := [];
     clients := []; readyState := ∅; ws_deviceId := ∅; advertised := self;
     outbox := []; clock_reads := 0; next_ref := 0 |}.

Definition with_connectedDevices
  (f : list (jskey * deviceInfo) -> list (jskey * deviceInfo)) (w : world) : world :=
  {| connectedDevices := f (connectedDevices w);
     discoveryClients := discoveryClients w; offerCache := offerCache w;
     clients := clients w; readyState := readyState w;
     ws_deviceId := ws_deviceId w; advertised := advertised w;
     outbox := outbox w; clock_reads := clock_reads w; next_ref := next_ref w |}.

Definition with_discoveryClients
  (f : list (jskey * DiscoveryRecord) -> list (jskey * DiscoveryRecord))
  (w : world) : world :=
  {| connectedDevices := connectedDevices w;
     discoveryClients := f (discoveryClients w); offerCache := offerCache w;
     clients := clients w; readyState := readyState w;
     ws_deviceId := ws_deviceId w; advertised := advertised w;
     outbox := outbox w; clock_reads := clock_reads w; next_ref := next_ref w |}.

Definition with_offerCache
  (f : list (jskey * (jsval * Z)) -> list (jskey * (jsval * Z))) (w : world) : world :=
  {| connectedDevices := connectedDevices w;
     discoveryClients := discoveryClients w; offerCache := f (offerCache w);
     clients := clients w; readyState := readyState w;
     ws_deviceId := ws_deviceId w; advertised := advertised w;
     outbox := outbox w; clock_reads := clock_reads w; next_ref := next_ref w |}.

Definition with_clients (f : list handle -> list handle) (w : world) : world :=
  {| connectedDevices := connectedDevices w;
     discoveryClients := discoveryClients w; offerCache := offerCache w;
     clients := f (clients w); readyState := readyState w;
     ws_deviceId := ws_deviceId w; advertised := advertised w;
     outbox := outbox w; clock_reads := clock_reads w; next_ref := next_ref w |}.

Definition with_readyState
  (f : gmap handle ReadyState -> gmap handle ReadyState) (w : world) : world :=
  {| connectedDevices := connectedDevices w;
     discoveryClients := discoveryClients w; offerCache := offerCache w;
     clients := clients w; readyState := f (readyState w);
     ws_deviceId := ws_deviceId w; advertised := advertised w;
     outbox := outbox w; clock_reads := clock_reads w; next_ref := next_ref w |}.

Definition with_ws_deviceId
  (f : gmap handle (JSON * jskey) -> gmap handle (JSON * jskey)) (w : world) : world :=
  {| connectedDevices := connectedDevices w;
     discoveryClients := discoveryClients w; offerCache := offerCache w;
     clients := clients w; readyState := readyState w;
     ws_deviceId := f (ws_deviceId w); advertised := advertised w;
     outbox := outbox w; clock_reads := clock_reads w; next_ref := next_ref w |}.

Definition with_outbox (f : list action -> list action) (w : world) : world :=
  {| connectedDevices := connectedDevices w;
     discoveryClients := discoveryClients w; offerCache := offerCache w;
     clients := clients w; readyState := readyState w;
     ws_deviceId := ws_deviceId w; advertised := advertised w;
     outbox := f (outbox w); clock_reads := clock_reads w; next_ref := next_ref w |}.

Definition with_clock_reads (f : nat -> nat) (w : world) : world :=
  {| connectedDevices := connectedDevices w;
     discoveryClients := discoveryClients w; offerCache := offerCache w;
     clients := clients w; readyState := readyState w;
     ws_deviceId := ws_deviceId w; advertised := advertised w;
     outbox := outbox w; clock_reads := f (clock_reads w); next_ref := next_ref w |}.

Definition with_next_ref (f : nat -> nat) (w : world) : world :=
  {| connectedDevices := connectedDevices w;
     discoveryClients := discoveryClients w; offerCache := offerCache w;
     clients := clients w; readyState := readyState w;
     ws_deviceId := ws_deviceId w; advertised := advertised w;
     outbox := outbox w; clock_reads := clock_reads w; next_ref := f (next_ref w) |}.

(** [Date.now()] *)
Definition now : M world Z := fun w =>
  (Date_now (clock_reads w), with_clock_reads S w).

(** The Map key a value denotes; an object or array taken out of a freshly
    parsed message is one no earlier key can be identical to. *)
Definition intern (v : jsval) : M world jskey := fun w =>
  if is_reference v then (KRef (next_ref w), with_next_ref S w)
  else (key_of v 0, w).

(** Every [logger] line prints [new Date().toISOString()]. *)
Definition logger : M world unit := (_ <- now ;; ret tt)%prog.

Definition send (h : handle) (msg : JSON) : M world unit :=
  modify (with_outbox (fun o => o ++ [Send h msg])).

(** [this.socket.send(..., this.port, address, ...)] *)
Definition send_datagram (address : string) (msg : JSON) : M world unit :=
  modify (with_outbox (fun o => o ++ [Datagram address msg])).

(** [ws.close(code, reason)] *)
Definition close (h : handle) (code : Z) (reason : string) : M world unit :=
  (modify (with_readyState (ws_close h)) ;;
   modify (with_outbox (fun o => o ++ [Close h code reason])))%prog.

(** *** DeviceDiscovery *)

Definition respondToDiscovery (r : rinfo) : M world unit :=
  (self <- gets advertised ;;
   send_datagram (ri_address r)
     (JObj [("type", JStr "server-response"); ("device", self)]))%prog.

Definition advertiseSelf : M world unit :=
  (self <- gets advertised ;;
   send_datagram "255.255.255.255"
     (JObj [("type", JStr "server-announce"); ("device", self)]))%prog.

(** [data.device.name] throws when [data.device] is [null] or
    [undefined]; nothing has been written by then. *)
Definition handleDiscoveryMessage (data : JSON) (r : rinfo) : M world outcome :=
  match data with
  | JNull => ret Thrown
  | _ =>
      if is_str (get_prop data "type") "device-discovery" then
        (logger ;; respondToDiscovery r ;; ret Returned)%prog
      else if is_str (get_prop data "type") "device-announce" then
        match get_prop data "device" with
        | None | Some JNull => ret Thrown
        | Some device =>
            (logger ;;
             id <- intern (get_prop device "id") ;;
             lastSeen <- now ;;
             modify (with_discoveryClients
               (JSMap.set id
                  {| dr_device := spread (Some device);
                     dr_lastSeen := lastSeen;
                     dr_address := ri_address r |})) ;;
             ret Returned)%prog
        end
      else ret Returned
  end.

(** The listener [socket.on('message', ...)] of the discovery socket. *)
Definition on_datagram (raw : option JSON) (r : rinfo) : M world unit :=
  (res <- match raw with
          | Some data => handleDiscoveryMessage data r
          | None => ret Thrown
          end ;;
   match res with
   | Returned => ret tt
   | Thrown => logger
   end)%prog.

(** *** WebSocket message handlers *)

Definition device_entry (d : deviceInfo) : JSON :=
  JObj [("id", di_id d); ("name", di_name d); ("type", di_type d);
        ("capabilities", di_capabilities d);
        ("connectedAt", JInt (di_connectedAt d))].

Definition device_list_message (w : world) (timestamp : Z) : JSON :=
  JObj [("type", JStr "device-list");
        ("devices", JArr (device_entry <$> JSMap.values (connectedDevices w)));
        ("timestamp", JInt timestamp)].

(** The loop [wss.clients.forEach] with the test on [readyState]. *)
Definition send_to_open (targets : list handle) (message : JSON) : M world unit :=
  forEach targets (fun c =>
    (open <- gets (fun w => is_open (readyState w) c) ;;
     if open : bool then send c message else ret tt)%prog).

Definition broadcastDeviceList : M world unit :=
  (deviceList <- gets (fun w => device_entry <$> JSMap.values (connectedDevices w)) ;;
   timestamp <- now ;;
   cs <- gets clients ;;
   send_to_open cs
     (JObj [("type", JStr "device-list");
            ("devices", JArr deviceList);
            ("timestamp", JInt timestamp)]))%prog.

(** The object literal [deviceInfo] of [handleDeviceRegistration]. *)
Definition build_info (h : handle) (message : JSON) (deviceId : JSON)
  (connectedAt lastHeartbeat : Z) : deviceInfo :=
  {| di_id := deviceId;
     di_name := js_or (get_prop message "name") deviceId;
     di_type := js_or (get_prop message "deviceType") (JStr "client");
     di_capabilities := js_or (get_prop message "capabilities") (JArr []);
     di_ws := h;
     di_connectedAt := connectedAt;
     di_lastHeartbeat := lastHeartbeat |}.

Definition registration_confirmed (deviceId : JSON) (timestamp : Z) : JSON :=
  JObj [("type", JStr "registration-confirmed");
        ("deviceId", deviceId);
        ("timestamp", JInt timestamp)].

Definition handleDeviceRegistration (h : handle) (message : JSON) : M world unit :=
  (deviceId <- (if truthy (get_prop message "deviceId")
                then ret (js_or (get_prop message "deviceId") JNull)
                else t <- now ;; ret (JStr ("device-" +:+ pretty t))) ;;
   key <- intern (Some deviceId) ;;
   connectedAt <- now ;;
   lastHeartbeat <- now ;;
   modify (with_connectedDevices
     (JSMap.set key (build_info h message deviceId connectedAt lastHeartbeat))) ;;
   logger ;;
   modify (with_ws_deviceId <[h := (deviceId, key)]>) ;;
   timestamp <- now ;;
   send h (registration_confirmed deviceId timestamp) ;;
   broadcastDeviceList)%prog.

(** [WebRTCSignaling.broadcastMessage]: every open client but the origin. *)
Definition broadcastMessage (message : JSON) (originWs : handle) : M world unit :=
  (cs <- gets clients ;;
   send_to_open (filter (fun c => c <> originWs) cs) message)%prog.

Definition handleOffer (deviceId : JSON * jskey) (offer : jsval) (h : handle)
  : M world unit :=
  (logger ;;
   timestamp <- now ;;
   modify (with_offerCache (JSMap.set deviceId.2 (offer, timestamp))) ;;
   broadcastMessage
     (JObj (stringify_fields
              [("type", Some (JStr "offer-received"));
               ("from", Some deviceId.1);
               ("offer", offer)]))
     h)%prog.

Definition handleAnswer (deviceId : JSON * jskey) (answer : jsval)
  (targetId : jsval) : M world unit :=
  (logger ;;
   target <- intern targetId ;;
   targetPeer <- gets (fun w => JSMap.get target (connectedDevices w)) ;;
   match targetPeer with
   | Some tp =>
       send (di_ws tp)
         (JObj (stringify_fields
                  [("type", Some (JStr "answer"));
                   ("from", Some deviceId.1);
                   ("answer", answer)]))
   | None => logger
   end)%prog.

Definition handleICECandidate (deviceId : JSON * jskey) (candidate : jsval)
  (targetId : jsval) : M world unit :=
  (logger ;;
   target <- intern targetId ;;
   targetPeer <- gets (fun w => JSMap.get target (connectedDevices w)) ;;
   match targetPeer with
   | Some tp =>
       send (di_ws tp)
         (JObj (stringify_fields
                  [("type", Some (JStr "ice-candidate"));
                   ("from", Some deviceId.1);
                   ("candidate", candidate)]))
   | None => ret tt
   end)%prog.

Definition handleWebRTCSignaling (h : handle) (message : JSON) : M world unit :=
  (deviceId <- gets (fun w => ws_deviceId w !! h) ;;
   match deviceId with
   | None =>
       send h (JObj [("type", JStr "error");
                     ("message", JStr "Device not registered")])
   | Some deviceId =>
       let signalingType := get_prop message "signalingType" in
       if is_str signalingType "offer" then
         handleOffer deviceId (get_prop message "payload") h
       else if is_str signalingType "answer" then
         handleAnswer deviceId (get_prop message "payload")
           (get_prop message "targetId")
       else if is_str signalingType "ice-candidate" then
         handleICECandidate deviceId (get_prop message "payload")
           (get_prop message "targetId")
       else logger
   end)%prog.

(** [ws.deviceId] as a Map key; a socket that never registered has none. *)
Definition deviceId_key (w : world) (h : handle) : jskey :=
  match ws_deviceId w !! h with
  | Some (_, k) => k
  | None => KUndefined
  end.

(** [device.lastHeartbeat = t] on the object held by the Map. *)
Definition beat (t : Z) (d : deviceInfo) : deviceInfo :=
  {| di_id := di_id d; di_name := di_name d; di_type := di_type d;
     di_capabilities := di_capabilities d; di_ws := di_ws d;
     di_connectedAt := di_connectedAt d; di_lastHeartbeat := t |}.

Definition handleHeartbeat (h : handle) : M world unit :=
  (deviceId <- gets (fun w => deviceId_key w h) ;;
   device <- gets (fun w => JSMap.get deviceId (connectedDevices w)) ;;
   match device with
   | Some d =>
       t <- now ;;
       modify (with_connectedDevices (JSMap.set deviceId (beat t d))) ;;
       timestamp <- now ;;
       send h (JObj [("type", JStr "heartbeat-ack");
                     ("timestamp", JInt timestamp)])
   | None => ret tt
   end)%prog.

(** [signaling.cleanupPeer] also deletes from [this.peers], a Map that is
    never written. *)
Definition cleanupDevice (h : handle) : M world unit :=
  (deviceId <- gets (fun w => ws_deviceId w !! h) ;;
   match deviceId with
   | Some (_, key) =>
       modify (with_connectedDevices (JSMap.delete key)) ;;
       modify (with_offerCache (JSMap.delete key)) ;;
       logger ;;
       logger ;;
       broadcastDeviceList
   | None => ret tt
   end)%prog.

(** The [switch] inside the [try] of [ws.on('message', ...)]; reading
    [message.type] throws on [null]. *)
Definition dispatch (h : handle) (message : JSON) : M world outcome :=
  match message with
  | JNull => ret Thrown
  | _ =>
      let type := get_prop message "type" in
      ((if is_str type "register" then handleDeviceRegistration h message
        else if is_str type "webrtc-signaling" then handleWebRTCSignaling h message
        else if is_str type "heartbeat" then handleHeartbeat h
        else if is_str type "get-device-list" then broadcastDeviceList
        else logger) ;;
       ret Returned)%prog
  end.

Definition invalid_format : JSON :=
  JObj [("type", JStr "error"); ("message", JStr "Invalid message format")].

Definition on_message (h : handle) (raw : option JSON) : M world unit :=
  (r <- match raw with
        | Some message => dispatch h message
        | None => ret Thrown
        end ;;
   match r with
   | Returned => ret tt
   | Thrown => logger ;; send h invalid_format
   end)%prog.

(** *** Cleanup tasks *)

(** The keys the first [forEach] of a sweep pushes. *)
Definition stale_keys (now : Z) (m : list (jskey * deviceInfo)) : list jskey :=
  (filter (fun kv => now - di_lastHeartbeat kv.2 > DEVICE_TIMEOUT) m).*1.

Definition evict (deviceId : jskey) : M world unit :=
  (device <- gets (fun w => JSMap.get deviceId (connectedDevices w)) ;;
   match device with
   | Some d => close (di_ws d) 1000 "Device timeout"
   | None => ret tt
   end ;;
   modify (with_connectedDevices (JSMap.delete deviceId)) ;;
   logger)%prog.

(** The body of the first [setInterval]. *)
Definition sweep_devices : M world unit :=
  (t <- now ;;
   staleDevices <- gets (fun w => stale_keys t (connectedDevices w)) ;;
   forEach staleDevices evict ;;
   if bool_decide (0 < length staleDevices)%nat then broadcastDeviceList
   else ret tt)%prog.

Definition stale_clients (now : Z) (m : list (jskey * DiscoveryRecord)) : list jskey :=
  (filter (fun kv => now - dr_lastSeen kv.2 > DEVICE_TIMEOUT) m).*1.

(** The body of the second [setInterval]. *)
Definition sweep_discovery : M world unit :=
  (t <- now ;;
   staleClients <- gets (fun w => stale_clients t (discoveryClients w)) ;;
   forEach staleClients (fun clientId =>
     modify (with_discoveryClients (JSMap.delete clientId)) ;; logger))%prog.

(** *** The event loop *)

Inductive event :=
  | Connection (h : handle)
  | Message (h : handle) (raw : option JSON)
  | Closed (h : handle)
  | SweepTick
  | DiscoverySweepTick
  | AdvertiseTick
  | Packet (raw : option JSON) (r : rinfo).

(** The socket library keeps [wss.clients] and [readyState] up to date
    before the listeners of the application run. *)
Definition step (ev : event) : M world unit :=
  match ev with
  | Connection h =>
      (modify (with_readyState <[h := OPEN]>) ;;
       modify (with_clients (fun cs => cs ++ [h])) ;;
       logger)%prog
  | Message h raw => on_message h raw
  | Closed h =>
      (modify (with_readyState <[h := CLOSED]>) ;;
       modify (with_clients (filter (fun c => c <> h))) ;;
       cleanupDevice h)%prog
  | SweepTick => sweep_devices
  | DiscoverySweepTick => sweep_discovery
  | AdvertiseTick => advertiseSelf
  | Packet raw r => on_datagram raw r
  end.

Fixpoint run (evs : list event) (w : world) : world :=
  match evs with
  | [] => w
  | ev :: rest => run rest (exec (step ev) w)
  end.

(** The list every fan-out serialises. *)
Definition snapshot (w : world) : list deviceInfo :=
  JSMap.values (connectedDevices w).

(** *** Vocabulary of the statements *)

(** The sends of one fan-out: the same message to every client whose socket
    is open, in the order of [wss.clients]. *)
Definition fanout (w : world) (message : JSON) : list action :=
  (fun c => Send c message)
    <$> filter (fun c => is_open (readyState w) c = true) (clients w).

(** The test of the liveness sweep. *)
Definition silent (now : Z) (d : deviceInfo) : Prop :=
  now - di_lastHeartbeat d > DEVICE_TIMEOUT.

#[global] Instance silent_dec now d : Decision (silent now d).
Proof. rewrite /silent. apply _. Defined.

(** The three Maps have distinct keys. *)
Definition maps_wf (w : world) : Prop :=
  JSMap.wf (connectedDevices w)
  /\ JSMap.wf (discoveryClients w)
  /\ JSMap.wf (offerCache w).

(** Running [m] keeps [P]. *)
Definition preserves {A} (P : world -> Prop) (m : M world A) : Prop :=
  forall w, P w -> P (m w).2.

Definition is_close (a : action) : Prop :=
  match a with
  | Close _ _ _ => True
  | _ => False
  end.

(** A [device-announce] datagram for [device]. *)
Definition announce (device : JSON) : JSON :=
  JObj [("type", JStr "device-announce"); ("device", device)].
End Program.
End Server2.

(** * Concrete runs

    A runtime whose clock advances by one millisecond per reading, and the
    worlds and messages used to exercise the statements below. *)

Module Scenario.
Definition demo : Runtime :=
  {| Date_now := fun k => 1700000000000 + Z.of_nat k;
     toISOString := fun z => pretty z;
     Math_random := fun k => "r" +:+ pretty k;
     getLocalIPAddress := "192.168.1.10" |}.

Definition register_laptop : JSON :=
  JObj [("type", JStr "register-device");
        ("payload", JObj [("name", JStr "Laptop"); ("type", JStr "client")])].

Definition offer_to (target : string) : JSON :=
  JObj [("type", JStr "offer");
        ("targetPeerId", JStr target);
        ("payload", JObj [("sdp", JStr "v=0")])].

(** The id handed to the first connection. *)
Definition p1 : string := @Server.next_id demo Server.init.

(** Two participants are connected; the first one registered a device. *)
Definition two_peers : Server.world :=
  @Server.run demo
    [Server.Connection 0%nat;
     Server.Message 0%nat (Some register_laptop);
     Server.Connection 1%nat]
    Server.init.


(** The id handed to the second connection of [two_peers]. *)
Definition p2 : string := "device-1700000000007-r1".

Definition printer : JSON :=
  JObj [("name", JStr "Printer"); ("type", JStr "printer")].

Definition discovery_request : JSON := JObj [("type", JStr "discovery-request")].


End Scenario.

(** Runs of the second server.  The clock of [slow] advances by ten seconds
    per reading, so that a device can fall silent within a few events. *)

Module Scenario2.
Definition slow : Runtime :=
  {| Date_now := fun k => 1700000000000 + 10000 * Z.of_nat k;
     toISOString := fun z => pretty z;
     Math_random := fun k => "r" +:+ pretty k;
     getLocalIPAddress := "192.168.1.10" |}.

Definition self : JSON :=
  JObj [("id", JStr "device-1700000000000-r0");
        ("name", JStr "shearpoint");
        ("address", JStr "192.168.1.10");
        ("port", JInt 3000);
        ("type", JStr "server");
        ("timestamp", JInt 1700000000000);
        ("capabilities",
         JArr [JStr "webrtc-signaling"; JStr "device-discovery"; JStr "streaming"])].

Definition register_as (deviceId : string) : JSON :=
  JObj [("type", JStr "register"); ("deviceId", JStr deviceId)].

Definition register_anonymous : JSON :=
  JObj [("type", JStr "register"); ("name", JStr "Guest")].

Definition heartbeat : JSON := JObj [("type", JStr "heartbeat")].

Definition announce_tablet : JSON :=
  Server2.announce (JObj [("id", JStr "tablet"); ("name", JStr "Tablet")]).

(** An announcement whose id is an array. *)
Definition announce_array : JSON :=
  Server2.announce (JObj [("id", JArr [JNum "1"]); ("name", JStr "Odd")]).

Definition from_20 : Server2.rinfo :=
  {| Server2.ri_address := "192.168.1.20"; Server2.ri_port := 5353 |}.

Definition from_77 : Server2.rinfo :=
  {| Server2.ri_address := "192.168.1.77"; Server2.ri_port := 5353 |}.

(** Two sockets are connected; "tv" registered on the first and "phone" on
    the second; the phone has just sent a heartbeat, the tv never did. *)
Definition tv_silent : Server2.world :=
  @Server2.run slow
    [Server2.Connection 0%nat;
     Server2.Message 0%nat (Some (register_as "tv"));
     Server2.Connection 1%nat;
     Server2.Message 1%nat (Some (register_as "phone"));
     Server2.Message 1%nat (Some heartbeat)]
    (Server2.init self).

(** A third socket connected and sent nothing. *)
Definition with_stranger : Server2.world :=
  @Server2.run slow [Server2.Connection 2%nat] tv_silent.
End Scenario2.

(** * What a log line can print

    A template literal converts its values to strings.  An array converts
    its elements; an object calls its [toString], and an object that came out
    of [JSON.parse] with an own property of that name has no callable one, so
    that the conversion throws. *)

Fixpoint printable (v : JSON) : bool :=
  match v with
  | JObj fs =>
      match obj_get "toString" fs with
      | Some _ => false
      | None => true
      end
  | JArr items => forallb printable items
  | _ => true
  end.

Definition loggable (v : jsval) : bool :=
  match v with
  | Some j => printable j
  | None => true
  end.

(** * src/server.js: two read-only routes and the shutdown handler *)

Module ServerRoutes.
Import Server.
Section Program.
Context `{Runtime}.

(** [app.get('/api/peers/:peerId', ...)] *)
Definition get_api_peers_id (peerId : string) : M world unit :=
  (p <- gets (fun w => JSMap.get peerId (connectedPeers w)) ;;
   match p with
   | None =>
       respond 404 (JObj [("error", JStr "Peer not found");
                          ("peerId", JStr peerId)])
   | Some p =>
       online <- gets (fun w => is_open (readyState w) (peer_ws p)) ;;
       timestamp <- now_iso ;;
       respond 200
         (JObj [("peerId", JStr (peer_peerId p));
                ("device", device_or_null (peer_device p));
                ("connectedAt", JStr (toISOString (peer_connectedAt p)));
                ("online", JBool online);
                ("timestamp", JStr timestamp)])
   end)%prog.

(** [app.get('/api/devices', ...)] *)
Definition get_api_devices : M world unit :=
  (devices <- gets (fun w => device_json <$> JSMap.values (deviceInfo w)) ;;
   timestamp <- now_iso ;;
   respond 200
     (JObj [("totalRegistered", JInt (Z.of_nat (length devices)));
            ("devices", JArr devices);
            ("timestamp", JStr timestamp)]))%prog.

(** [process.on('SIGINT', ...)], where [cs] lists [wss.clients], the
    sockets the library tracks, in the order of the Set.  [server.close]
    and the exit timer touch nothing of the world. *)
Definition on_sigint (cs : list handle) : M world unit :=
  forEach cs (fun client =>
    (open <- gets (fun w => is_open (readyState w) client) ;;
     if open : bool then close client else ret tt)%prog).

(** *** Vocabulary of the statements *)

(** The message has a [type] that [handleSignalingMessage] has a case for. *)
Definition known_type (data : JSON) : bool :=
  is_str (get_prop data "type") "register-device"
  || is_str (get_prop data "type") "discovery-request"
  || forwardable data
  || is_str (get_prop data "type") "peer-list-request".

(** The last call the server made. *)
Definition last_call (w : world) : option action := last (outbox w).

(** The calls made from [w] to [w']. *)
Definition calls_since (w w' : world) : list action :=
  drop (length (outbox w)) (outbox w').

Definition sent_to (h : handle) (a : action) : Prop :=
  match a with
  | Send h' _ => h' = h
  | _ => False
  end.

(** Every entry of the registry sits under the id it carries. *)
Definition keyed_by_id (w : world) : Prop :=
  forall id p, JSMap.get id (connectedPeers w) = Some p -> peer_peerId p = id.

(** Both tables have distinct keys and hold every value under the id the
    value carries. *)
Definition tables_keyed (w : world) : Prop :=
  JSMap.wf (connectedPeers w)
  /\ JSMap.wf (deviceInfo w)
  /\ keyed_by_id w
  /\ (forall id d, JSMap.get id (deviceInfo w) = Some d -> d_id d = id).
End Program.
End ServerRoutes.

(** * The second server: the REST routes *)

Module Server2Routes.
Import Server2.
Section Program.
Context `{Runtime}.

(** The object built for a device by both [/api/devices] routes. *)
Definition device_detail (d : deviceInfo) : JSON :=
  JObj [("id", di_id d); ("name", di_name d); ("type", di_type d);
        ("capabilities", di_capabilities d);
        ("connectedAt", JInt (di_connectedAt d));
        ("lastHeartbeat", JInt (di_lastHeartbeat d))].

(** [app.get('/api/devices', ...)]: the status and the body handed to
    [res.json]. *)
Definition get_api_devices : M world (Z * JSON) :=
  (devices <- gets (fun w => device_detail <$> JSMap.values (connectedDevices w)) ;;
   timestamp <- now ;;
   ret (200, JObj [("success", JBool true);
                   ("devices", JArr devices);
                   ("count", JInt (Z.of_nat (length devices)));
                   ("timestamp", JInt timestamp)]))%prog.

(** [app.get('/api/devices/:deviceId', ...)]; a route parameter is a
    string. *)
Definition get_api_devices_id (deviceId : string) : M world (Z * JSON) :=
  (device <- gets (fun w => JSMap.get (KStr deviceId) (connectedDevices w)) ;;
   match device with
   | None =>
       ret (404, JObj [("success", JBool false);
                       ("error", JStr "Device not found")])
   | Some d =>
       ret (200, JObj [("success", JBool true); ("device", device_detail d)])
   end)%prog.

(** *** Vocabulary of the statements *)

(** The message has a [type] that the [switch] of the message listener has
    a case for. *)
Definition known_type (message : JSON) : bool :=
  is_str (get_prop message "type") "register"
  || is_str (get_prop message "type") "webrtc-signaling"
  || is_str (get_prop message "type") "heartbeat"
  || is_str (get_prop message "type") "get-device-list".

(** Datagrams that end in the [catch] of the discovery socket: text that
    [JSON.parse] rejects, the text [null], and a [device-announce] whose
    [device] is missing or [null]. *)
Definition datagram_throws (raw : option JSON) : bool :=
  match raw with
  | None | Some JNull => true
  | Some data =>
      is_str (get_prop data "type") "device-announce"
      && match get_prop data "device" with
         | None | Some JNull => true
         | Some _ => false
         end
  end.

(** The test of the discovery sweep. *)
Definition unseen (now : Z) (r : DiscoveryRecord) : Prop :=
  now - dr_lastSeen r > DEVICE_TIMEOUT.

#[global] Instance unseen_dec now r : Decision (unseen now r).
Proof. rewrite /unseen. apply _. Defined.

(** What [broadcastMessage] sends for an offer. *)
Definition offer_received (from : JSON) (offer : jsval) : JSON :=
  JObj (stringify_fields
          [("type", Some (JStr "offer-received"));
           ("from", Some from);
           ("offer", offer)]).

(** What [handleAnswer] and [handleICECandidate] send to the target. *)
Definition relayed (kind field : string) (from : JSON) (payload : jsval) : JSON :=
  JObj (stringify_fields
          [("type", Some (JStr kind)); ("from", Some from); (field, payload)]).

(** The message an [answer] or an [ice-candidate] is relayed as. *)
Definition relay_of (from : JSON) (message : JSON) : JSON :=
  if is_str (get_prop message "signalingType") "answer" then
    relayed "answer" "answer" from (get_prop message "payload")
  else
    relayed "ice-candidate" "candidate" from (get_prop message "payload").

Definition sent_to (h : handle) (a : action) : Prop :=
  match a with
  | Send h' _ => h' = h
  | _ => False
  end.

(** The calls made from [w] to [w']. *)
Definition calls_since (w w' : world) : list action :=
  drop (length (outbox w)) (outbox w').

(** The sockets an offer from [h] is passed on to: every open client but
    [h], in the order of [wss.clients]. *)
Definition everyone_else (w : world) (h : handle) : list handle :=
  filter (fun c => is_open (readyState w) c = true)
    (filter (fun c => c <> h) (clients w)).
End Program.
End Server2Routes.

(** * The browser client: [escapeHtml]

    A JS string is a sequence of UTF-16 code units and the pattern of
    [escapeHtml] matches five ASCII characters.  The text is modelled by its
    UTF-8 bytes: no byte of a multi-byte sequence is an ASCII character, so
    replacing on the bytes and replacing on the code units give the same
    text. *)

Module App.
Import Stdlib.Strings.Ascii.

(** [map[m]] for a character the pattern matches. *)
Definition entity (c : Ascii.ascii) : option string :=
  if Ascii.eqb c "&"%char then Some "&amp;"
  else if Ascii.eqb c "<"%char then Some "&lt;"
  else if Ascii.eqb c ">"%char then Some "&gt;"
  else if Ascii.eqb c "034"%char then Some "&quot;"
  else if Ascii.eqb c "'"%char then Some "&#039;"
  else None.

(** [text.replace(pattern, m => map[m])], the pattern matching the five
    characters that have an entity. *)
Fixpoint escapeHtml (text : string) : string :=
  match text with
  | EmptyString => EmptyString
  | String c rest =>
      match entity c with
      | Some e => (e +:+ escapeHtml rest)
      | None => String c (escapeHtml rest)
      end
  end.

(** The characters that would open a tag or close an attribute value. *)
Definition markup (c : Ascii.ascii) : bool :=
  Ascii.eqb c "<"%char || Ascii.eqb c ">"%char || Ascii.eqb c "034"%char || Ascii.eqb c "'"%char.

Definition special (c : Ascii.ascii) : bool := Ascii.eqb c "&"%char || markup c.

Fixpoint chars (s : string) : list Ascii.ascii :=
  match s with
  | EmptyString => []
  | String c rest => c :: chars rest
  end.
End App.

(** * More concrete runs *)

Module ScenarioMore.
(** The device of the first participant of [Scenario.two_peers], and the
    two registry entries. *)
Definition laptop : Server.Device :=
  {| Server.d_id := Scenario.p1;
     Server.d_name := JStr "Laptop";
     Server.d_type := JStr "client";
     Server.d_capabilities := JArr [];
     Server.d_registeredAt := "1700000000005" |}.

Definition first_peer : Server.peer :=
  {| Server.peer_ws := 0%nat;
     Server.peer_connectedAt := 1700000000002;
     Server.peer_peerId := Scenario.p1;
     Server.peer_device := Some laptop |}.

Definition second_peer : Server.peer :=
  {| Server.peer_ws := 1%nat;
     Server.peer_connectedAt := 1700000000009;
     Server.peer_peerId := Scenario.p2;
     Server.peer_device := None |}.

Definition peer_list_request : JSON := JObj [("type", JStr "peer-list-request")].

(** A message of a type the server has no case for. *)
Definition ping : JSON := JObj [("type", JStr "ping")].

(** A POST body without [type]. *)
Definition nameless : JSON := JObj [("name", JStr "Printer")].

(** Runs of the second server. *)

Definition signal (signalingType : string) (fields : list (string * JSON))
  : JSON :=
  JObj ([("type", JStr "webrtc-signaling");
         ("signalingType", JStr signalingType)] ++ fields).

Definition sdp : JSON := JObj [("sdp", JStr "v=0")].

Definition get_device_list : JSON := JObj [("type", JStr "get-device-list")].

Definition discovery : JSON := JObj [("type", JStr "device-discovery")].

(** An announcement without [device]. *)
Definition announce_nothing : JSON := JObj [("type", JStr "device-announce")].

(** A registration under a number. *)
Definition register_7 : JSON :=
  JObj [("type", JStr "register"); ("deviceId", JNum "7")].

(** Socket 0 registered "tv", then socket 1 registered "tv" as well. *)
Definition shared_id : Server2.world :=
  @Server2.run Scenario2.slow
    [Server2.Connection 0%nat;
     Server2.Message 0%nat (Some (Scenario2.register_as "tv"));
     Server2.Connection 1%nat;
     Server2.Message 1%nat (Some (Scenario2.register_as "tv"))]
    (Server2.init Scenario2.self).

(** A camera announced itself; two sockets connected; a tablet announced
    itself.  On the clock of [Scenario2.slow] the next reading is 50 s after
    the camera was seen and 10 s after the tablet was. *)
Definition two_announced : Server2.world :=
  @Server2.run Scenario2.slow
    [Server2.Packet
       (Some (Server2.announce (JObj [("id", JStr "camera")]))) Scenario2.from_77;
     Server2.Connection 0%nat;
     Server2.Connection 1%nat;
     Server2.Packet (Some Scenario2.announce_tablet) Scenario2.from_20]
    (Server2.init Scenario2.self).
End ScenarioMore.

(** * Facts about objects and Maps *)

Section ObjectFacts.
Implicit Types (k : string) (v : JSON) (fs : list (string * JSON)).




(** Assigning a property never moves or drops the keys already there. *)
Lemma obj_keys_set_prefix k v fs :
  obj_keys (obj_set k v fs) = obj_keys fs
  \/ obj_keys (obj_set k v fs) = obj_keys fs ++ [k].
Proof.
  unfold obj_keys. induction fs as [|[k0 v0] fs IH]; simpl; [by right|].
  destruct (String.eqb k k0) eqn:E; simpl.
  - apply String.eqb_eq in E. subst k0. by left.
  - destruct IH as [IH | IH]; [left | right]; f_equal; exact IH.
Qed.
End ObjectFacts.

Module JSMapFacts.
Section Facts.
Context {K V : Type} `{EqDecision K}.
Implicit Types (k : K) (v : V) (m : list (K * V)).

Lemma get_set_eq k v m : JSMap.get k (JSMap.set k v m) = Some v.
Proof.
  induction m as [|[k' v'] m IH]; csimpl.
  - by rewrite decide_True.
  - destruct (decide (k = k')); csimpl.
    + by rewrite decide_True.
    + by rewrite decide_False.
Qed.

Lemma get_set_ne k k' v m :
  k <> k' -> JSMap.get k' (JSMap.set k v m) = JSMap.get k' m.
Proof.
  intros Hne. induction m as [|[k0 v0] m IH]; csimpl.
  - by rewrite decide_False.
  - destruct (decide (k = k0)) as [->|]; csimpl.
    + by rewrite !decide_False.
    + by rewrite IH.
Qed.

Lemma get_delete_eq k m : JSMap.get k (JSMap.delete k m) = None.
Proof.
  induction m as [|[k' v'] m IH]; csimpl; [done|].
  destruct (decide (k = k')); csimpl; [done|]. by rewrite decide_False.
Qed.

Lemma get_delete_ne k k' m :
  k <> k' -> JSMap.get k' (JSMap.delete k m) = JSMap.get k' m.
Proof.
  intros Hne. induction m as [|[k0 v0] m IH]; csimpl; [done|].
  destruct (decide (k = k0)) as [->|]; csimpl.
  - by rewrite decide_False.
  - by rewrite IH.
Qed.

Lemma get_None k m : JSMap.get k m = None <-> k ∉ JSMap.keys m.
Proof.
  unfold JSMap.keys. induction m as [|[k' v'] m IH]; csimpl.
  - split; [intros _; apply not_elem_of_nil | done].
  - rewrite not_elem_of_cons. destruct (decide (k = k')); [|tauto].
    split; [done | tauto].
Qed.

Lemma get_Some_elem k v m : JSMap.get k m = Some v -> (k, v) ∈ m.
Proof.
  induction m as [|[k' v'] m IH]; csimpl; [done|].
  destruct (decide (k = k')) as [->|].
  - intros [= ->]. apply list_elem_of_here.
  - intros Hg. apply list_elem_of_further. auto.
Qed.

Lemma get_Some_key k v m : JSMap.get k m = Some v -> k ∈ JSMap.keys m.
Proof.
  intros Hg. destruct (decide (k ∈ JSMap.keys m)) as [|Hn]; [done|].
  apply get_None in Hn. congruence.
Qed.

Lemma elem_get k v m : JSMap.wf m -> (k, v) ∈ m -> JSMap.get k m = Some v.
Proof.
  unfold JSMap.wf, JSMap.keys.
  induction m as [|[k' v'] m IH]; csimpl; intros Hnd Hin.
  - by apply elem_of_nil in Hin.
  - apply NoDup_cons in Hnd as [Hk Hnd].
    apply elem_of_cons in Hin as [[= -> ->]|Hin].
    + by rewrite decide_True.
    + destruct (decide (k = k')) as [->|]; [|auto].
      exfalso. apply Hk. apply list_elem_of_fmap. by exists (k', v).
Qed.

Lemma keys_set_present k v m :
  k ∈ JSMap.keys m -> JSMap.keys (JSMap.set k v m) = JSMap.keys m.
Proof.
  unfold JSMap.keys. induction m as [|[k' v'] m IH]; csimpl; intros Hin.
  - by apply elem_of_nil in Hin.
  - destruct (decide (k = k')) as [->|Hne]; csimpl; [done|].
    apply elem_of_cons in Hin as [?|Hin]; [done|]. by rewrite IH.
Qed.

Lemma keys_set_absent k v m :
  k ∉ JSMap.keys m -> JSMap.keys (JSMap.set k v m) = JSMap.keys m ++ [k].
Proof.
  unfold JSMap.keys. induction m as [|[k' v'] m IH]; csimpl; intros Hin; [done|].
  apply not_elem_of_cons in Hin as [Hne Hin].
  rewrite decide_False //; csimpl. by rewrite IH.
Qed.

Lemma keys_delete k m :
  JSMap.keys (JSMap.delete k m) = filter (fun k' => k' <> k) (JSMap.keys m).
Proof.
  unfold JSMap.keys. induction m as [|[k' v'] m IH]; csimpl; [done|].
  destruct (decide (k = k')) as [->|Hne].
  - by rewrite filter_cons_False; [intros ?|].
  - rewrite filter_cons_True; [congruence|]. csimpl. by rewrite IH.
Qed.

Lemma wf_nil : JSMap.wf (@nil (K * V)).
Proof. apply NoDup_nil_2. Qed.

Lemma wf_set k v m : JSMap.wf m -> JSMap.wf (JSMap.set k v m).
Proof.
  unfold JSMap.wf. intros Hwf.
  destruct (decide (k ∈ JSMap.keys m)) as [Hin|Hin].
  - by rewrite keys_set_present.
  - rewrite keys_set_absent //. apply NoDup_app. split_and!; [done| |].
    + intros x Hx ->%list_elem_of_singleton. done.
    + apply NoDup_singleton.
Qed.

Lemma wf_delete k m : JSMap.wf m -> JSMap.wf (JSMap.delete k m).
Proof. unfold JSMap.wf. rewrite keys_delete. apply NoDup_filter. Qed.




Lemma elem_values v m :
  JSMap.wf m -> v ∈ JSMap.values m <-> exists k, JSMap.get k m = Some v.
Proof.
  intros Hwf. unfold JSMap.values. rewrite list_elem_of_fmap. split.
  - intros [[k v'] [-> Hin]]. exists k. by apply elem_get.
  - intros [k Hg]. exists (k, v). split; [done|]. by apply get_Some_elem.
Qed.

Lemma delete_absent k m : k ∉ JSMap.keys m -> JSMap.delete k m = m.
Proof.
  unfold JSMap.keys. induction m as [|[k' v'] m IH]; csimpl; intros Hin; [done|].
  apply not_elem_of_cons in Hin as [Hne Hin].
  rewrite decide_False //. by rewrite IH.
Qed.
End Facts.
End JSMapFacts.

(** * src/server.js: the handlers, run *)

Module ServerFacts.
Import Server.

#[local] Arguments broadcastPeerUpdate : simpl never.

Section Facts.
Context `{Runtime}.
Implicit Types (w : world) (h : handle).

Lemma with_outbox_nil w : with_outbox (fun o => o ++ []) w = w.
Proof. destruct w. rewrite /with_outbox /= app_nil_r //. Qed.

Lemma with_outbox_app w a b :
  with_outbox (fun o => o ++ b) (with_outbox (fun o => o ++ a) w)
  = with_outbox (fun o => o ++ (a ++ b)) w.
Proof. rewrite /with_outbox /= app_assoc //. Qed.

(** The loop of a fan-out sends to the open sockets, in order. *)
Lemma send_loop_run (ps : list peer) (message : JSON) w :
  forEach ps (fun p =>
    (open <- gets (fun w => is_open (readyState w) (peer_ws p)) ;;
     if open : bool then send (peer_ws p) message else ret tt)%prog) w
  = (tt, with_outbox (fun o => o ++
       ((fun p => Send (peer_ws p) message)
          <$> filter (fun p => is_open (readyState w) (peer_ws p) = true) ps)) w).
Proof.
  revert w. induction ps as [|p ps IH]; intros w.
  - by rewrite /= /ret with_outbox_nil.
  - rewrite /= /bind /gets /=.
    destruct (is_open (readyState w) (peer_ws p)) eqn:E.
    + rewrite filter_cons_True // /send /modify IH /= with_outbox_app //.
    + rewrite filter_cons_False; [by rewrite E|]. by rewrite /ret IH.
Qed.

Lemma broadcastPeerUpdate_run w :
  broadcastPeerUpdate w
  = (tt, with_outbox (fun o => o ++
           fanout w (peer_update_message w (toISOString (Date_now (clock_reads w)))))
           (with_clock_reads S w)).
Proof.
  rewrite /broadcastPeerUpdate /bind /now_iso /bind /now /ret /gets /=.
  by rewrite send_loop_run.
Qed.

Lemma is_str_true v s : is_str v s = true -> v = Some (JStr s).
Proof.
  destruct v as [[]|]; simpl; try done. by intros ->%String.eqb_eq.
Qed.

Lemma is_str_other v s s' : is_str v s = true -> s <> s' -> is_str v s' = false.
Proof.
  intros ->%is_str_true Hne. simpl. by apply String.eqb_neq.
Qed.


End Facts.
End ServerFacts.

(** * src/server.js: the registry invariant *)

Module RegistryFacts.
Import Server ServerFacts.

#[local] Arguments broadcastPeerUpdate : simpl never.

Section Facts.
Context `{Runtime}.
Implicit Types (w : world) (h : handle).



Lemma dispatch_register peerId data w :
  is_str (get_prop data "type") "register-device" = true ->
  handleSignalingMessage peerId data w
  = (Returned, (handleDeviceRegistration peerId (get_prop data "payload") w).2).
Proof.
  intros Hs. destruct data; try done.
  rewrite /handleSignalingMessage /bind Hs.
  by destruct (handleDeviceRegistration _ _ w) as [[] ?].
Qed.







End Facts.
End RegistryFacts.

(** * src/server.js: devices registered over HTTP *)

Module HttpDeviceFacts.
Import Server ServerFacts RegistryFacts.

#[local] Arguments broadcastPeerUpdate : simpl never.

Section Facts.
Context `{Runtime}.
Implicit Types (w : world) (h : handle) (d : Device) (i : string).





















(** The HTTP delete takes the device out of the table. *)
Lemma delete_removes w i :
  JSMap.get i (deviceInfo (exec (step (DeleteDevice i)) w)) = None.
Proof.
  rewrite /exec /step /delete_device /bind /gets /= /JSMap.has.
  destruct (JSMap.get i (deviceInfo w)) eqn:Hg.
  - rewrite /modify /=.
    destruct (JSMap.get i (connectedPeers w)) as [p|]; simpl.
    + destruct (is_open (readyState w) (peer_ws p)).
      * rewrite /close /bind /modify /= broadcastPeerUpdate_run /=
          /now_iso /bind /now /ret /respond /modify /=.
        apply JSMapFacts.get_delete_eq.
      * rewrite /ret broadcastPeerUpdate_run /=
          /now_iso /bind /now /ret /respond /modify /=.
        apply JSMapFacts.get_delete_eq.
    + rewrite /ret broadcastPeerUpdate_run /=
        /now_iso /bind /now /ret /respond /modify /=.
      apply JSMapFacts.get_delete_eq.
  - by rewrite /respond /modify /=.
Qed.
End Facts.
End HttpDeviceFacts.

Module ServerClaims.
Import Server ServerFacts RegistryFacts HttpDeviceFacts.
Section Claims.
Context `{Runtime}.
Implicit Types (w : world) (h : handle).




(** C6, amended: [handleDeviceRegistration] does not check that the id has
    a registry entry.  For an id without one it still builds the device,
    stores it in the device table under that id and fans the new list out;
    the registry itself is untouched and neither an error nor a confirmation
    is sent. *)
Theorem registration_unknown_id w peerId deviceData :
  JSMap.get peerId (connectedPeers w) = None ->
  let device :=
    build_device peerId deviceData (toISOString (Date_now (clock_reads w))) in
  let w' := exec (handleDeviceRegistration peerId deviceData) w in
  deviceInfo w' = JSMap.set peerId device (deviceInfo w)
  /\ connectedPeers w' = connectedPeers w
  /\ readyState w' = readyState w
  /\ outbox w'
     = outbox w ++
       fanout w (peer_update_message (with_deviceInfo (JSMap.set peerId device) w)
                   (toISOString (Date_now (S (clock_reads w))))).
Proof.
  intros Hg device w'. subst device w'.
  rewrite /exec /handleDeviceRegistration /bind /gets /now_iso /bind /now /ret
    /modify /= Hg broadcastPeerUpdate_run /= Hg /=. done.
Qed.



End Claims.

(** ** The statements at concrete inputs *)






Lemma registration_unknown_id_witness :
  let device := @build_device "ghost" (Some Scenario.printer) "1700000000000" in
  let w' := @exec world unit
              (@handleDeviceRegistration Scenario.demo "ghost" (Some Scenario.printer))
              init in
  deviceInfo w' = [("ghost", device)]
  /\ connectedPeers w' = []
  /\ readyState w' = ∅
  /\ outbox w' = [].
Proof.
  apply (@registration_unknown_id Scenario.demo init "ghost" (Some Scenario.printer)).
  reflexivity.
Defined.

(** C6 as stated fails: with an empty registry, a registration handled for
    the id "ghost" is not rejected.  The device is stored under "ghost" and
    no error is sent to anyone. *)
Lemma registration_unknown_id_counterexample :
  let w' := @exec world unit
              (@handleDeviceRegistration Scenario.demo "ghost" (Some Scenario.printer))
              init in
  JSMap.get "ghost" (connectedPeers init) = None
  /\ JSMap.has "ghost" (deviceInfo w') = true
  /\ deviceInfo w' <> deviceInfo init
  /\ outbox w' = [].
Proof.
  cbv zeta. split_and!; try (vm_compute; reflexivity).
  vm_compute. discriminate.
Qed.


(** The offer of the second participant to the first, as it is delivered. *)
Example forward_run :
  drop (length (outbox Scenario.two_peers))
    (outbox (@exec world unit
               (@step Scenario.demo
                  (Message 1%nat (Some (Scenario.offer_to Scenario.p1))))
               Scenario.two_peers))
  = [Send 0%nat
       (JObj [("type", JStr "offer");
              ("targetPeerId", JStr "device-1700000000000-r0");
              ("payload", JObj [("sdp", JStr "v=0")]);
              ("fromPeerId", JStr "device-1700000000007-r1");
              ("forwardedAt", JStr "1700000000012")])].
Proof. vm_compute. reflexivity. Qed.

(** An offer without [targetPeerId] is answered with the text the template
    literal makes of [undefined]. *)
Example forward_without_target :
  drop (length (outbox Scenario.two_peers))
    (outbox (@exec world unit
               (@step Scenario.demo
                  (Message 1%nat (Some (JObj [("type", JStr "offer")]))))
               Scenario.two_peers))
  = [Send 1%nat
       (JObj [("type", JStr "error");
              ("error", JStr "Target peer 'undefined' is not available")])].
Proof. vm_compute. reflexivity. Qed.

(** A frame with an unknown [type] is ignored without a reply. *)
Example unknown_type_ignored :
  @exec world unit
    (@step Scenario.demo (Message 1%nat (Some (JObj [("type", JStr "ping")]))))
    Scenario.two_peers
  = Scenario.two_peers.
Proof. vm_compute. reflexivity. Qed.
End ServerClaims.

(** * The second server: the handlers, run *)

Module Server2Facts.
Import Server2.

#[local] Arguments broadcastDeviceList : simpl never.

Section Facts.
Context `{Runtime}.
Implicit Types (w : world) (h : handle).

Lemma outbox_append_nil w : with_outbox (fun o => o ++ []) w = w.
Proof. destruct w. rewrite /with_outbox /= app_nil_r //. Qed.

Lemma outbox_append_app w a b :
  with_outbox (fun o => o ++ b) (with_outbox (fun o => o ++ a) w)
  = with_outbox (fun o => o ++ (a ++ b)) w.
Proof. rewrite /with_outbox /= app_assoc //. Qed.

Lemma send_to_open_run (targets : list handle) (message : JSON) w :
  send_to_open targets message w
  = (tt, with_outbox (fun o => o ++
       ((fun c => Send c message)
          <$> filter (fun c => is_open (readyState w) c = true) targets)) w).
Proof.
  rewrite /send_to_open. revert w. induction targets as [|c cs IH]; intros w.
  - by rewrite /= /ret outbox_append_nil.
  - rewrite /= /bind /gets /=.
    destruct (is_open (readyState w) c) eqn:E.
    + rewrite filter_cons_True // /send /modify IH /= outbox_append_app //.
    + rewrite filter_cons_False; [by rewrite E|]. by rewrite /ret IH.
Qed.

Lemma broadcastDeviceList_run w :
  broadcastDeviceList w
  = (tt, with_outbox (fun o => o ++
           fanout w (device_list_message w (Date_now (clock_reads w))))
           (with_clock_reads S w)).
Proof.
  rewrite /broadcastDeviceList /bind /now /gets /=.
  by rewrite send_to_open_run.
Qed.

Lemma is_str_literal v s : is_str v s = true -> v = Some (JStr s).
Proof.
  destruct v as [[]|]; simpl; try done. by intros ->%String.eqb_eq.
Qed.

Lemma is_str_excludes v s s' : is_str v s = true -> s <> s' -> is_str v s' = false.
Proof.
  intros ->%is_str_literal Hne. simpl. by apply String.eqb_neq.
Qed.

Lemma dispatch_heartbeat h message w :
  is_str (get_prop message "type") "heartbeat" = true ->
  dispatch h message w = (Returned, (handleHeartbeat h w).2).
Proof.
  intros Hs. destruct message; try done.
  rewrite /dispatch /bind.
  rewrite (is_str_excludes _ _ "register" Hs) // (is_str_excludes _ _ "webrtc-signaling" Hs) // Hs.
  by destruct (handleHeartbeat h w) as [[] ?].
Qed.

Lemma dispatch_registration h message w :
  is_str (get_prop message "type") "register" = true ->
  dispatch h message w = (Returned, (handleDeviceRegistration h message w).2).
Proof.
  intros Hs. destruct message; try done.
  rewrite /dispatch /bind Hs.
  by destruct (handleDeviceRegistration h _ w) as [[] ?].
Qed.

(** ** Everything the server does keeps the Maps well formed *)

Lemma preserves_ret {A} (P : world -> Prop) (a : A) : preserves P (ret a).
Proof. by intros w. Qed.

Lemma preserves_gets {A} (P : world -> Prop) (f : world -> A) : preserves P (gets f).
Proof. by intros w. Qed.

Lemma preserves_bind {A B} (P : world -> Prop) (m : M world A) (k : A -> M world B) :
  preserves P m -> (forall a, preserves P (k a)) -> preserves P (bind m k).
Proof.
  intros Hm Hk w Hw. rewrite /bind. specialize (Hm w Hw).
  destruct (m w) as [a w1]. by apply Hk.
Qed.

Lemma preserves_modify (P : world -> Prop) (f : world -> world) :
  (forall w, P w -> P (f w)) -> preserves P (modify f).
Proof. intros Hf w Hw. by apply Hf. Qed.

Lemma preserves_forEach {A} (P : world -> Prop) (l : list A) (f : A -> M world unit) :
  (forall x, preserves P (f x)) -> preserves P (forEach l f).
Proof.
  intros Hf. induction l as [|x l IH]; simpl.
  - apply preserves_ret.
  - apply preserves_bind; [apply Hf | by intros _].
Qed.

Lemma preserves_now : preserves maps_wf now.
Proof. by intros w. Qed.

Lemma preserves_intern v : preserves maps_wf (intern v).
Proof. intros w Hw. rewrite /intern. by destruct (is_reference v). Qed.

Ltac wf_step :=
  lazymatch goal with
  | |- preserves _ (ret _) => apply preserves_ret
  | |- preserves _ (gets _) => apply preserves_gets
  | |- preserves _ now => apply preserves_now
  | |- preserves _ (intern _) => apply preserves_intern
  | |- preserves _ (bind _ _) => apply preserves_bind; [|intros ?]
  | |- preserves _ (forEach _ _) => apply preserves_forEach; intros ?
  | |- preserves _ (modify _) =>
      apply preserves_modify;
      let w := fresh "w" in
      intros w (? & ? & ?); split_and!; simpl;
      auto using JSMapFacts.wf_set, JSMapFacts.wf_delete
  | |- preserves _ (if ?b then _ else _) => destruct b
  | |- preserves _ (match ?x with _ => _ end) => destruct x
  end.

Ltac wf_prog := repeat wf_step.

Lemma preserves_logger : preserves maps_wf logger.
Proof. rewrite /logger. wf_prog. Qed.

Lemma preserves_send h msg : preserves maps_wf (send h msg).
Proof. rewrite /send. wf_prog. Qed.

Lemma preserves_send_to_open cs msg : preserves maps_wf (send_to_open cs msg).
Proof. rewrite /send_to_open /send. wf_prog. Qed.

Lemma preserves_broadcastDeviceList : preserves maps_wf broadcastDeviceList.
Proof.
  rewrite /broadcastDeviceList. wf_prog. apply preserves_send_to_open.
Qed.

Lemma preserves_registration h message :
  preserves maps_wf (handleDeviceRegistration h message).
Proof.
  rewrite /handleDeviceRegistration /logger /send. wf_prog.
  apply preserves_broadcastDeviceList.
Qed.

Lemma preserves_signaling h message :
  preserves maps_wf (handleWebRTCSignaling h message).
Proof.
  rewrite /handleWebRTCSignaling /handleOffer /handleAnswer /handleICECandidate
    /broadcastMessage /logger /send.
  wf_prog; apply preserves_send_to_open.
Qed.

Lemma preserves_heartbeat h : preserves maps_wf (handleHeartbeat h).
Proof. rewrite /handleHeartbeat /send. wf_prog. Qed.

Lemma preserves_dispatch h message : preserves maps_wf (dispatch h message).
Proof.
  rewrite /dispatch. destruct message; try apply preserves_ret.
  all: apply preserves_bind; [|intros ?; apply preserves_ret].
  all: repeat case_match;
    first [ apply preserves_registration | apply preserves_signaling
          | apply preserves_heartbeat | apply preserves_broadcastDeviceList
          | apply preserves_logger ].
Qed.

Lemma preserves_on_message h raw : preserves maps_wf (on_message h raw).
Proof.
  rewrite /on_message. apply preserves_bind.
  - destruct raw; [apply preserves_dispatch | apply preserves_ret].
  - intros []; [apply preserves_ret|].
    apply preserves_bind; [apply preserves_logger | intros _; apply preserves_send].
Qed.

Lemma preserves_cleanup h : preserves maps_wf (cleanupDevice h).
Proof.
  rewrite /cleanupDevice /logger. wf_prog. apply preserves_broadcastDeviceList.
Qed.

Lemma preserves_sweep_devices : preserves maps_wf sweep_devices.
Proof.
  rewrite /sweep_devices /evict /close /logger. wf_prog.
  apply preserves_broadcastDeviceList.
Qed.

Lemma preserves_sweep_discovery : preserves maps_wf sweep_discovery.
Proof. rewrite /sweep_discovery /logger. wf_prog. Qed.

Lemma preserves_on_datagram raw r : preserves maps_wf (on_datagram raw r).
Proof.
  rewrite /on_datagram /handleDiscoveryMessage /respondToDiscovery /send_datagram
    /logger.
  wf_prog.
Qed.

Lemma preserves_step ev : preserves maps_wf (step ev).
Proof.
  destruct ev; simpl.
  - rewrite /logger. wf_prog.
  - apply preserves_on_message.
  - wf_prog. apply preserves_cleanup.
  - apply preserves_sweep_devices.
  - apply preserves_sweep_discovery.
  - rewrite /advertiseSelf /send_datagram. wf_prog.
  - apply preserves_on_datagram.
Qed.

Lemma maps_wf_init self : maps_wf (init self).
Proof. split_and!; apply NoDup_nil_2. Qed.

(** Every world the server can reach has well-formed Maps. *)
Lemma maps_wf_run evs w : maps_wf w -> maps_wf (run evs w).
Proof.
  revert w. induction evs as [|ev evs IH]; intros w Hw; [done|].
  simpl. apply IH. by apply preserves_step.
Qed.

(** ** Announcements on the discovery socket *)


(** ** Registration *)




(** ** The liveness sweep *)

Lemma evict_run k w :
  evict k w
  = (tt, with_clock_reads S
           (with_connectedDevices (JSMap.delete k)
              match JSMap.get k (connectedDevices w) with
              | Some d =>
                  with_outbox (fun o => o ++ [Close (di_ws d) 1000 "Device timeout"])
                    (with_readyState (ws_close (di_ws d)) w)
              | None => w
              end)).
Proof.
  rewrite /evict /bind /gets /=.
  by destruct (JSMap.get k (connectedDevices w)).
Qed.

Lemma ws_close_not_open h (rs : gmap handle ReadyState) :
  ws_close h rs !! h <> Some OPEN.
Proof.
  rewrite /ws_close. destruct (rs !! h) as [[]|] eqn:E; rewrite ?E //.
  by rewrite lookup_insert_eq.
Qed.

Lemma ws_close_other h h' (rs : gmap handle ReadyState) :
  h <> h' -> ws_close h rs !! h' = rs !! h'.
Proof.
  intros Hne. rewrite /ws_close. destruct (rs !! h) as [[]|]; try done.
  by rewrite lookup_insert_ne.
Qed.

Lemma ws_close_stays h h' (rs : gmap handle ReadyState) :
  rs !! h' <> Some OPEN -> ws_close h rs !! h' <> Some OPEN.
Proof.
  intros Hn. destruct (decide (h = h')) as [<-|Hne].
  - apply ws_close_not_open.
  - by rewrite ws_close_other.
Qed.

Lemma delete_filter {V} (k : jskey) (m : list (jskey * V)) :
  JSMap.delete k m = filter (fun kv => kv.1 <> k) m.
Proof.
  induction m as [|[k' v] m IH]; simpl; [done|].
  destruct (decide (k = k')) as [->|Hne].
  - rewrite filter_cons_False; [by intros ?|]. done.
  - rewrite filter_cons_True; [simpl; congruence|]. by rewrite IH.
Qed.

Lemma filter_all {A} (P : A -> Prop) `{!forall x, Decision (P x)} (l : list A) :
  (forall x, x ∈ l -> P x) -> filter P l = l.
Proof.
  induction l as [|a l IH]; intros Hp; [done|].
  rewrite filter_cons_True; [apply Hp, list_elem_of_here|].
  f_equal. apply IH. intros x Hx. by apply Hp, list_elem_of_further.
Qed.

Lemma foldl_delete_filter {V} (ks : list jskey) (m : list (jskey * V)) :
  foldl (fun m k => JSMap.delete k m) m ks = filter (fun kv => kv.1 ∉ ks) m.
Proof.
  revert m. induction ks as [|k ks IH]; intros m; simpl.
  - symmetry. apply filter_all. intros kv _. apply not_elem_of_nil.
  - rewrite IH delete_filter list_filter_filter.
    apply list_filter_iff. intros kv. rewrite not_elem_of_cons. tauto.
Qed.

Lemma filter_ext_elem {A} (P Q : A -> Prop)
  `{!forall x, Decision (P x), !forall x, Decision (Q x)} (l : list A) :
  (forall x, x ∈ l -> P x <-> Q x) -> filter P l = filter Q l.
Proof.
  induction l as [|a l IH]; intros Hpq; [done|].
  assert (filter P l = filter Q l) as Hl.
  { apply IH. intros x Hx. apply Hpq. by apply list_elem_of_further. }
  pose proof (Hpq a (list_elem_of_here _ _)) as Ha.
  destruct (decide (P a)).
  - rewrite !filter_cons_True; [tauto..|]. by rewrite Hl.
  - rewrite !filter_cons_False; [tauto..|]. done.
Qed.


Lemma elem_stale_keys t k (m : list (jskey * deviceInfo)) :
  JSMap.wf m ->
  k ∈ stale_keys t m <-> exists d, JSMap.get k m = Some d /\ silent t d.
Proof.
  intros Hwf. rewrite /stale_keys list_elem_of_fmap. split.
  - intros [[k' d] [-> [Hs Hin]%list_elem_of_filter]].
    exists d. split; [by apply JSMapFacts.elem_get | done].
  - intros [d [Hg Hs]]. exists (k, d). split; [done|].
    apply list_elem_of_filter. split; [done|]. by apply JSMapFacts.get_Some_elem.
Qed.

(** Deleting the stale keys leaves the entries that are not silent. *)
Lemma survivors t (m : list (jskey * deviceInfo)) :
  JSMap.wf m ->
  foldl (fun m k => JSMap.delete k m) m (stale_keys t m)
  = filter (fun kv => ~ silent t kv.2) m.
Proof.
  intros Hwf. rewrite foldl_delete_filter. apply filter_ext_elem.
  intros [k d] Hin. simpl. rewrite elem_stale_keys //.
  apply (JSMapFacts.elem_get _ _ _ Hwf) in Hin. split.
  - intros Hn Hs. apply Hn. by exists d.
  - intros Hn [d' [Hg Hs]]. congruence.
Qed.

(** The loop [staleDevices.forEach]: what it leaves behind. *)
Lemma evict_loop ks w :
  let w' := (forEach ks evict w).2 in
  connectedDevices w'
  = foldl (fun m k => JSMap.delete k m) (connectedDevices w) ks
  /\ clients w' = clients w
  /\ clock_reads w' = (length ks + clock_reads w)%nat
  /\ (exists closes,
        outbox w' = outbox w ++ closes
        /\ Forall is_close closes
        /\ (NoDup ks -> forall k d, k ∈ ks ->
              JSMap.get k (connectedDevices w) = Some d ->
              Close (di_ws d) 1000 "Device timeout" ∈ closes))
  /\ (forall h, readyState w !! h <> Some OPEN -> readyState w' !! h <> Some OPEN)
  /\ (NoDup ks -> forall k d, k ∈ ks ->
        JSMap.get k (connectedDevices w) = Some d ->
        readyState w' !! di_ws d <> Some OPEN)
  /\ (forall h,
        (forall k d, k ∈ ks -> JSMap.get k (connectedDevices w) = Some d ->
           di_ws d <> h) ->
        readyState w' !! h = readyState w !! h).
Proof.
  revert w. induction ks as [|k ks IH]; intros w.
  - simpl. split_and!; try done.
    + exists []. rewrite app_nil_r. split_and!; try done.
      intros _ k d Hk. by apply elem_of_nil in Hk.
    + intros _ k d Hk. by apply elem_of_nil in Hk.
  - cbn [forEach]. rewrite /bind evict_run.
    set (w1 := with_clock_reads S _).
    specialize (IH w1). cbv zeta in IH.
    destruct IH as (E1 & E2 & E3 & (closes & E4 & F4 & M4) & S5 & S6 & S7).
    assert (connectedDevices w1 = JSMap.delete k (connectedDevices w)) as C1.
    { rewrite /w1. by destruct (JSMap.get k (connectedDevices w)). }
    assert (clients w1 = clients w) as C2.
    { rewrite /w1. by destruct (JSMap.get k (connectedDevices w)). }
    assert (clock_reads w1 = S (clock_reads w)) as C3.
    { rewrite /w1. by destruct (JSMap.get k (connectedDevices w)). }
    assert (outbox w1
            = outbox w ++
              match JSMap.get k (connectedDevices w) with
              | Some d => [Close (di_ws d) 1000 "Device timeout"]
              | None => []
              end) as C4.
    { rewrite /w1. destruct (JSMap.get k (connectedDevices w)); simpl; [done|].
      by rewrite app_nil_r. }
    assert (readyState w1
            = match JSMap.get k (connectedDevices w) with
              | Some d => ws_close (di_ws d) (readyState w)
              | None => readyState w
              end) as C5.
    { rewrite /w1. by destruct (JSMap.get k (connectedDevices w)). }
    cbv zeta. split_and!.
    + by rewrite E1 C1.
    + by rewrite E2 C2.
    + rewrite E3 C3 /=. lia.
    + eexists. rewrite E4 C4 -app_assoc. split; [reflexivity|]. split.
      * apply Forall_app. split; [|done].
        destruct (JSMap.get k (connectedDevices w)); by repeat constructor.
      * intros [Hk Hnd]%NoDup_cons k0 d Hin Hg.
        apply elem_of_cons in Hin as [->|Hin].
        -- rewrite Hg. apply elem_of_app. left. apply list_elem_of_here.
        -- apply elem_of_app. right. apply (M4 Hnd k0 d Hin).
           rewrite C1 JSMapFacts.get_delete_ne //. intros <-. done.
    + intros h Hn. apply S5. rewrite C5.
      destruct (JSMap.get k (connectedDevices w)); [|done].
      by apply ws_close_stays.
    + intros [Hk Hnd]%NoDup_cons k0 d Hin Hg.
      apply elem_of_cons in Hin as [->|Hin].
      * apply S5. rewrite C5 Hg. apply ws_close_not_open.
      * apply (S6 Hnd k0 d Hin).
        rewrite C1 JSMapFacts.get_delete_ne //. intros <-. done.
    + intros h Hn. rewrite S7.
      * intros k0 d Hin Hg. destruct (decide (k = k0)) as [<-|Hne].
        -- by rewrite C1 JSMapFacts.get_delete_eq in Hg.
        -- rewrite C1 JSMapFacts.get_delete_ne // in Hg.
           apply (Hn k0 d); [by apply list_elem_of_further | done].
      * rewrite C5. destruct (JSMap.get k (connectedDevices w)) as [d|] eqn:Hg;
          [|done].
        apply ws_close_other. apply (Hn k d); [apply list_elem_of_here | done].
Qed.
End Facts.
End Server2Facts.

Module Server2Claims.
Import Server2 Server2Facts.
Section Claims.
Context `{Runtime}.
Implicit Types (w : world) (h : handle).




End Claims.

(** ** The statements at concrete inputs *)



(** The tv is evicted, the phone stays, and the one open socket left gets
    the new list once. *)
Example sweep_run :
  let w' := @exec world unit (@step Scenario2.slow SweepTick) Scenario2.tv_silent in
  JSMap.keys (connectedDevices w') = [KStr "phone"]
  /\ readyState w' !! 0%nat = Some CLOSING
  /\ readyState w' !! 1%nat = Some OPEN
  /\ drop (length (outbox Scenario2.tv_silent)) (outbox w')
     = [Close 0%nat 1000 "Device timeout";
        Send 1%nat (device_list_message w' 1700000160000)].
Proof. vm_compute. done. Qed.

(** The [close] event of the evicted socket arrives in a later turn and
    runs [cleanupDevice], which fans the list out once more. *)
Example evicted_socket_closes :
  let w' := @exec world unit (@step Scenario2.slow SweepTick) Scenario2.tv_silent in
  let w'' := @exec world unit (@step Scenario2.slow (Closed 0%nat)) w' in
  JSMap.keys (connectedDevices w'') = [KStr "phone"]
  /\ drop (length (outbox w')) (outbox w'')
     = [Send 1%nat (device_list_message w'' 1700000190000)].
Proof. vm_compute. done. Qed.


(** A socket that never registered is not answered. *)
Example heartbeat_unregistered :
  @exec world unit
    (@step Scenario2.slow (Message 2%nat (Some Scenario2.heartbeat)))
    Scenario2.with_stranger
  = Scenario2.with_stranger.
Proof. vm_compute. done. Qed.



(** An id that is an array is, in every datagram, a new object and so a new
    Map key: such announcements are not merged. *)
Example announce_array_ids :
  let w2 := @run Scenario2.slow
              [Packet (Some Scenario2.announce_array) Scenario2.from_20;
               Packet (Some Scenario2.announce_array) Scenario2.from_77]
              Scenario2.tv_silent in
  JSMap.keys (discoveryClients w2) = [KRef 0; KRef 1].
Proof. vm_compute. reflexivity. Qed.

(** A registration without [deviceId] is stored under "device-" followed by
    the clock reading. *)
Example register_default_id :
  let w' := @exec world unit
              (@step Scenario2.slow (Message 2%nat (Some Scenario2.register_anonymous)))
              Scenario2.with_stranger in
  JSMap.keys (connectedDevices w')
  = [KStr "tv"; KStr "phone"; KStr "device-1700000150000"].
Proof. vm_compute. reflexivity. Qed.

(** The same run, computed: the tv entry now belongs to socket 2 while
    socket 0 still carries the id. *)
Example supersede_run :
  let w2 := @run Scenario2.slow
              [Message 0%nat (Some (Scenario2.register_as "tv"));
               Message 2%nat (Some (Scenario2.register_as "tv"))]
              Scenario2.with_stranger in
  JSMap.keys (connectedDevices w2) = [KStr "tv"; KStr "phone"]
  /\ (di_ws <$> JSMap.get (KStr "tv") (connectedDevices w2)) = Some 2%nat
  /\ (snd <$> ws_deviceId w2 !! 0%nat) = Some (KStr "tv")
  /\ readyState w2 !! 0%nat = Some OPEN.
Proof. vm_compute. done. Qed.
End Server2Claims.
(** * src/server.js: what the handlers leave alone *)

Module ServerFrames.
Import Server ServerFacts RegistryFacts ServerRoutes.

#[local] Arguments broadcastPeerUpdate : simpl never.

Section Frames.
Context `{Runtime}.
Implicit Types (w : world) (h : handle).

(** Every non-null message is dispatched on its [type]. *)
Lemma dispatch_cases peerId data w :
  data <> JNull ->
  handleSignalingMessage peerId data w
  = bind (if is_str (get_prop data "type") "register-device" then
            handleDeviceRegistration peerId (get_prop data "payload")
          else if is_str (get_prop data "type") "discovery-request" then
            handleDiscoveryRequest peerId
          else if forwardable data then
            forwardSignalingMessage peerId (get_prop data "targetPeerId") data
          else if is_str (get_prop data "type") "peer-list-request" then
            sendPeerList peerId
          else ret tt) (fun _ => ret Returned) w.
Proof. by destruct data. Qed.

Lemma dispatch_discovery peerId data w :
  is_str (get_prop data "type") "discovery-request" = true ->
  handleSignalingMessage peerId data w
  = (Returned, (handleDiscoveryRequest peerId w).2).
Proof.
  intros Hs. rewrite dispatch_cases; [by destruct data|].
  rewrite /bind (is_str_other _ _ "register-device" Hs) // Hs.
  by destruct (handleDiscoveryRequest peerId w) as [[] ?].
Qed.

Lemma dispatch_peer_list peerId data w :
  is_str (get_prop data "type") "peer-list-request" = true ->
  handleSignalingMessage peerId data w
  = (Returned, (sendPeerList peerId w).2).
Proof.
  intros Hs. rewrite dispatch_cases; [by destruct data|].
  rewrite /bind /forwardable (is_str_other _ _ "register-device" Hs) //
    (is_str_other _ _ "discovery-request" Hs) // (is_str_other _ _ "offer" Hs) //
    (is_str_other _ _ "answer" Hs) // (is_str_other _ _ "ice-candidate" Hs) //= Hs.
  by destruct (sendPeerList peerId w) as [[] ?].
Qed.

Lemma dispatch_unknown peerId data w :
  data <> JNull -> known_type data = false ->
  handleSignalingMessage peerId data w = (Returned, w).
Proof.
  intros Hn Hk. rewrite dispatch_cases //. move: Hk. rewrite /known_type /bind.
  move=> /orb_false_iff [/orb_false_iff [/orb_false_iff [-> ->] ->] ->] //.
Qed.

(** *** What each handler does to the two tables and to the sockets *)

Lemma registration_tables w peerId deviceData :
  let device :=
    build_device peerId deviceData (toISOString (Date_now (clock_reads w))) in
  let w' := (handleDeviceRegistration peerId deviceData w).2 in
  deviceInfo w' = JSMap.set peerId device (deviceInfo w)
  /\ connectedPeers w'
     = match JSMap.get peerId (connectedPeers w) with
       | Some p => JSMap.set peerId (attach device p) (connectedPeers w)
       | None => connectedPeers w
       end
  /\ readyState w' = readyState w
  /\ listeners w' = listeners w.
Proof.
  rewrite /handleDeviceRegistration /bind /gets /now_iso /bind /now /ret
    /modify /=.
  destruct (JSMap.get peerId (connectedPeers w)) as [p|] eqn:Hg.
  - rewrite /modify broadcastPeerUpdate_run /= JSMapFacts.get_set_eq /=.
    by destruct (is_open (readyState w) (peer_ws p)).
  - by rewrite broadcastPeerUpdate_run /= Hg /=.
Qed.

Lemma discovery_run w peerId :
  (handleDiscoveryRequest peerId w).2
  = match JSMap.get peerId (connectedPeers w) with
    | Some pc =>
        if is_open (readyState w) (peer_ws pc) then
          with_outbox
            (fun o => o ++
               [Send (peer_ws pc)
                  (JObj [("type", JStr "discovery-response");
                         ("devices",
                          JArr (device_json
                                  <$> filter (fun d => d_id d <> peerId)
                                        (JSMap.values (deviceInfo w))));
                         ("discoveredAt",
                          JStr (toISOString (Date_now (clock_reads w))))])])
            (with_clock_reads S w)
        else w
    | None => w
    end.
Proof.
  rewrite /handleDiscoveryRequest /bind /gets /=.
  destruct (JSMap.get peerId (connectedPeers w)) as [p|]; [|done]. simpl.
  by destruct (is_open (readyState w) (peer_ws p)).
Qed.

Lemma peer_list_run w peerId :
  (sendPeerList peerId w).2
  = match JSMap.get peerId (connectedPeers w) with
    | Some pc =>
        if is_open (readyState w) (peer_ws pc) then
          let peers :=
            peer_json <$> filter (fun p => peer_peerId p <> peerId)
                            (JSMap.values (connectedPeers w)) in
          with_outbox
            (fun o => o ++
               [Send (peer_ws pc)
                  (JObj [("type", JStr "peer-list");
                         ("peers", JArr peers);
                         ("totalPeers", JInt (Z.of_nat (length peers)));
                         ("timestamp",
                          JStr (toISOString (Date_now (clock_reads w))))])])
            (with_clock_reads S w)
        else w
    | None => w
    end.
Proof.
  rewrite /sendPeerList /bind /gets /=.
  destruct (JSMap.get peerId (connectedPeers w)) as [p|]; [|done]. simpl.
  by destruct (is_open (readyState w) (peer_ws p)).
Qed.

(** The world changes in its log and its clock only. *)
Lemma forward_frame w peerId targetPeerId data :
  let w' := (forwardSignalingMessage peerId targetPeerId data w).2 in
  connectedPeers w' = connectedPeers w /\ deviceInfo w' = deviceInfo w
  /\ readyState w' = readyState w /\ listeners w' = listeners w.
Proof.
  rewrite /forwardSignalingMessage /bind /gets /=.
  destruct (peer_open w (get_peer w targetPeerId)); simpl.
  - by destruct (get_peer w targetPeerId).
  - destruct (JSMap.get peerId (connectedPeers w)) as [sp|]; [|done]. simpl.
    by destruct (is_open (readyState w) (peer_ws sp)).
Qed.

Lemma signaling_tables w peerId data :
  let w' := (handleSignalingMessage peerId data w).2 in
  (w' = (handleDeviceRegistration peerId (get_prop data "payload") w).2
   \/ (connectedPeers w' = connectedPeers w /\ deviceInfo w' = deviceInfo w
       /\ readyState w' = readyState w /\ listeners w' = listeners w)).
Proof.
  assert (data = JNull \/ data <> JNull) as [->|Hn];
    [destruct data; [by left|by right..] | by right |].
  rewrite dispatch_cases // /bind.
  destruct (is_str (get_prop data "type") "register-device").
  { left. by destruct (handleDeviceRegistration _ _ w). }
  right.
  destruct (is_str (get_prop data "type") "discovery-request").
  { pose proof (discovery_run w peerId) as E.
    destruct (handleDiscoveryRequest _ w) as [[] w1]. simpl in *. rewrite E.
    destruct (JSMap.get peerId (connectedPeers w)) as [p|]; [|done].
    by destruct (is_open (readyState w) (peer_ws p)). }
  destruct (forwardable data).
  { pose proof (forward_frame w peerId (get_prop data "targetPeerId") data) as E.
    by destruct (forwardSignalingMessage _ _ _ w). }
  destruct (is_str (get_prop data "type") "peer-list-request"); [|done].
  pose proof (peer_list_run w peerId) as E.
  destruct (sendPeerList _ w) as [[] w1]. simpl in *. rewrite E.
  destruct (JSMap.get peerId (connectedPeers w)) as [p|]; [|done].
  by destruct (is_open (readyState w) (peer_ws p)).
Qed.

Lemma message_tables w h raw :
  let w' := exec (step (Message h raw)) w in
  (exists peerId deviceData,
     listeners w !! h = Some peerId
     /\ connectedPeers w'
        = connectedPeers (handleDeviceRegistration peerId deviceData w).2
     /\ deviceInfo w' = deviceInfo (handleDeviceRegistration peerId deviceData w).2
     /\ readyState w' = readyState w /\ listeners w' = listeners w)
  \/ (connectedPeers w' = connectedPeers w /\ deviceInfo w' = deviceInfo w
      /\ readyState w' = readyState w /\ listeners w' = listeners w).
Proof.
  rewrite /exec /step /bind /gets /=.
  destruct (listeners w !! h) as [peerId|] eqn:Hl; [|by right].
  rewrite /on_message /bind. destruct raw as [data|]; [|by right].
  pose proof (signaling_tables w peerId data) as E.
  destruct (handleSignalingMessage peerId data w) as [r w1]. simpl in E.
  destruct E as [->|E].
  - left. exists peerId, (get_prop data "payload").
    destruct (registration_tables w peerId (get_prop data "payload"))
      as (_ & _ & E3 & E4).
    by destruct r.
  - right. by destruct r.
Qed.

Lemma js_or_truthy (v b : JSON) : truthy (Some v) = true -> js_or (Some v) b = v.
Proof. rewrite /js_or. by intros ->. Qed.

Lemma post_run w body :
  exec (step (PostDevice body)) w
  = if accepted body then
      let id := next_id w in
      let device :=
        {| d_id := id;
           d_name := js_or (get_prop body "name") JNull;
           d_type := js_or (get_prop body "type") JNull;
           d_capabilities := js_or (get_prop body "capabilities") (JArr []);
           d_registeredAt := toISOString (Date_now (S (clock_reads w))) |} in
      let w1 :=
        with_deviceInfo (JSMap.set id device)
          (with_clock_reads (fun n => S (S n)) (with_random_reads S w)) in
      with_outbox
        (fun o => o ++
           fanout w1 (peer_update_message w1
                        (toISOString (Date_now (2 + clock_reads w)))) ++
           [Respond 201
              (JObj [("message", JStr "Device registered");
                     ("device", device_json device);
                     ("timestamp",
                      JStr (toISOString (Date_now (3 + clock_reads w))))])])
        (with_clock_reads (fun n => S (S n)) w1)
    else
      with_outbox
        (fun o => o ++
           [Respond 400
              (JObj [("error", JStr "Device name and type are required")])])
        w.
Proof.
  rewrite /exec /step /post_device /accepted.
  destruct (get_prop body "name") as [n|] eqn:Hn; [|done].
  destruct (get_prop body "type") as [t|] eqn:Ht; [|by rewrite andb_false_r].
  destruct (truthy (Some n) && truthy (Some t)) eqn:Ha; [|done].
  apply andb_prop in Ha as [Ha1 Ha2].
  rewrite (js_or_truthy n) // (js_or_truthy t) //.
  rewrite /bind /generateDeviceId /bind /now_iso /bind /now /random /ret /modify /=.
  rewrite broadcastPeerUpdate_run /= /respond /modify /=.
  rewrite /with_outbox /= -app_assoc //.
Qed.

Lemma delete_run w deviceId :
  exec (step (DeleteDevice deviceId)) w
  = if JSMap.has deviceId (deviceInfo w) then
      let w1 := with_deviceInfo (JSMap.delete deviceId) w in
      let w2 :=
        match JSMap.get deviceId (connectedPeers w) with
        | Some p =>
            if is_open (readyState w) (peer_ws p) then
              with_outbox (fun o => o ++ [Close (peer_ws p)])
                (with_readyState (ws_close (peer_ws p)) w1)
            else w1
        | None => w1
        end in
      with_outbox
        (fun o => o ++
           fanout w2 (peer_update_message w2
                        (toISOString (Date_now (clock_reads w)))) ++
           [Respond 200
              (JObj [("message", JStr "Device deleted");
                     ("deviceId", JStr deviceId);
                     ("timestamp",
                      JStr (toISOString (Date_now (S (clock_reads w)))))])])
        (with_clock_reads (fun n => S (S n)) w2)
    else
      with_outbox
        (fun o => o ++
           [Respond 404 (JObj [("error", JStr "Device not found");
                               ("deviceId", JStr deviceId)])])
        w.
Proof.
  rewrite /exec /step /delete_device /bind /gets /=.
  destruct (JSMap.has deviceId (deviceInfo w)); [|done].
  rewrite /modify /=.
  destruct (JSMap.get deviceId (connectedPeers w)) as [p|]; simpl.
  - destruct (is_open (readyState w) (peer_ws p)).
    + rewrite /close /bind /modify /= broadcastPeerUpdate_run /=
        /now_iso /bind /now /ret /respond /modify /=.
      rewrite /with_outbox /= -!app_assoc //.
    + rewrite /ret broadcastPeerUpdate_run /=
        /now_iso /bind /now /ret /respond /modify /=.
      rewrite /with_outbox /= -!app_assoc //.
  - rewrite /ret broadcastPeerUpdate_run /=
      /now_iso /bind /now /ret /respond /modify /=.
    rewrite /with_outbox /= -!app_assoc //.
Qed.

Lemma connection_run w h :
  let id := next_id w in
  let entry :=
    {| peer_ws := h; peer_connectedAt := Date_now (2 + clock_reads w);
       peer_peerId := id; peer_device := None |} in
  let w1 :=
    with_listeners <[h := id]>
      (with_connectedPeers (JSMap.set id entry)
         (with_readyState <[h := OPEN]> w)) in
  exec (step (Connection h)) w
  = with_outbox
      (fun o => o ++
         [Send h (welcome id (toISOString (Date_now (3 + clock_reads w))))] ++
         fanout w1 (peer_update_message w1
                      (toISOString (Date_now (4 + clock_reads w)))))
      (with_clock_reads (fun n => 5 + n)%nat (with_random_reads S w1)).
Proof.
  rewrite /exec /step /bind /modify /on_connection /bind /generateDeviceId /bind
    /log_with_time /bind /now_iso /bind /now /random /ret /=.
  rewrite /modify /send /modify broadcastPeerUpdate_run /=.
  rewrite /with_outbox /= -!app_assoc //.
Qed.

Lemma closed_run w h id :
  listeners w !! h = Some id ->
  let w1 :=
    with_deviceInfo (JSMap.delete id)
      (with_connectedPeers (JSMap.delete id)
         (with_readyState <[h := CLOSED]> w)) in
  exec (step (Closed h)) w
  = with_outbox
      (fun o => o ++
         fanout w1 (peer_update_message w1
                      (toISOString (Date_now (S (clock_reads w))))))
      (with_clock_reads (fun n => S (S n)) w1).
Proof.
  intros Hl.
  rewrite /exec /step /bind /modify /gets /= Hl /on_close /bind /log_with_time
    /bind /now_iso /bind /now /ret /modify /= broadcastPeerUpdate_run /=. done.
Qed.

Lemma closed_unheard w h :
  listeners w !! h = None ->
  exec (step (Closed h)) w = with_readyState <[h := CLOSED]> w.
Proof.
  intros Hl. by rewrite /exec /step /bind /modify /gets /= Hl.
Qed.

(** *** The tables stay keyed by id *)

Lemma keyed_init : tables_keyed init.
Proof.
  rewrite /tables_keyed /keyed_by_id /=.
  split_and!; try done; apply JSMapFacts.wf_nil.
Qed.

Lemma keyed_set_peer w id p w' :
  tables_keyed w -> peer_peerId p = id ->
  connectedPeers w' = JSMap.set id p (connectedPeers w) ->
  deviceInfo w' = deviceInfo w -> tables_keyed w'.
Proof.
  intros (W1 & W2 & K1 & K2) Hp E1 E2.
  rewrite /tables_keyed /keyed_by_id E1 E2. split_and!; try done.
  - by apply JSMapFacts.wf_set.
  - intros k q. destruct (decide (k = id)) as [->|Hne].
    + rewrite JSMapFacts.get_set_eq. congruence.
    + rewrite JSMapFacts.get_set_ne //. apply K1.
Qed.

Lemma keyed_registration w peerId deviceData :
  tables_keyed w ->
  tables_keyed (handleDeviceRegistration peerId deviceData w).2.
Proof.
  intros (W1 & W2 & K1 & K2).
  destruct (registration_tables w peerId deviceData) as (E1 & E2 & _).
  rewrite /tables_keyed /keyed_by_id E1 E2. split_and!.
  - destruct (JSMap.get peerId (connectedPeers w)); [|done].
    by apply JSMapFacts.wf_set.
  - by apply JSMapFacts.wf_set.
  - intros k q. destruct (JSMap.get peerId (connectedPeers w)) as [p|] eqn:Hg;
      [|apply K1].
    destruct (decide (k = peerId)) as [->|Hne].
    + rewrite JSMapFacts.get_set_eq. intros [= <-]. simpl. by apply K1.
    + rewrite JSMapFacts.get_set_ne //. apply K1.
  - intros k d. destruct (decide (k = peerId)) as [->|Hne].
    + rewrite JSMapFacts.get_set_eq. by intros [= <-].
    + rewrite JSMapFacts.get_set_ne //. apply K2.
Qed.

Lemma keyed_same w w' :
  tables_keyed w ->
  connectedPeers w' = connectedPeers w -> deviceInfo w' = deviceInfo w ->
  tables_keyed w'.
Proof.
  intros HK E1 E2. by rewrite /tables_keyed /keyed_by_id E1 E2.
Qed.

Lemma keyed_delete w w' k k' :
  tables_keyed w ->
  connectedPeers w' = connectedPeers w
  \/ connectedPeers w' = JSMap.delete k (connectedPeers w) ->
  deviceInfo w' = JSMap.delete k' (deviceInfo w) ->
  tables_keyed w'.
Proof.
  intros (W1 & W2 & K1 & K2) E1 E2.
  rewrite /tables_keyed /keyed_by_id E2. split_and!.
  - destruct E1 as [->| ->]; [done|]. by apply JSMapFacts.wf_delete.
  - by apply JSMapFacts.wf_delete.
  - intros i p. destruct E1 as [->| ->]; [apply K1|].
    destruct (decide (i = k)) as [->|Hne].
    + by rewrite JSMapFacts.get_delete_eq.
    + rewrite JSMapFacts.get_delete_ne //. apply K1.
  - intros i d. destruct (decide (i = k')) as [->|Hne].
    + by rewrite JSMapFacts.get_delete_eq.
    + rewrite JSMapFacts.get_delete_ne //. apply K2.
Qed.

Lemma keyed_step ev w : tables_keyed w -> tables_keyed (exec (step ev) w).
Proof.
  intros HK. destruct ev as [h|h raw|h|body|k].
  - rewrite connection_run. cbv zeta.
    by apply (keyed_set_peer w (next_id w)
                {| peer_ws := h; peer_connectedAt := Date_now (2 + clock_reads w);
                   peer_peerId := next_id w; peer_device := None |}).
  - destruct (message_tables w h raw)
      as [(peerId & deviceData & _ & E1 & E2 & _)|(E1 & E2 & _)].
    + pose proof (keyed_registration w peerId deviceData HK) as HK'.
      eapply keyed_same; [exact HK'|done..].
    + by eapply keyed_same.
  - destruct (listeners w !! h) as [id|] eqn:Hl.
    + rewrite (closed_run w h id) //. cbv zeta.
      eapply (keyed_delete w _ id id); [done|by right|done].
    + rewrite closed_unheard //.
  - rewrite post_run. destruct (accepted body); [|done]. cbv zeta.
    destruct HK as (W1 & W2 & K1 & K2).
    rewrite /tables_keyed /keyed_by_id /=. split_and!; try done.
    + by apply JSMapFacts.wf_set.
    + intros i d. destruct (decide (i = next_id w)) as [->|Hne].
      * rewrite JSMapFacts.get_set_eq. by intros [= <-].
      * rewrite JSMapFacts.get_set_ne //. apply K2.
  - rewrite delete_run. destruct (JSMap.has k (deviceInfo w)); [|done]. cbv zeta.
    eapply (keyed_delete w _ k k); [done|left|].
    + destruct (JSMap.get k (connectedPeers w)) as [p|]; [|done].
      by destruct (is_open (readyState w) (peer_ws p)).
    + destruct (JSMap.get k (connectedPeers w)) as [p|]; [|done].
      by destruct (is_open (readyState w) (peer_ws p)).
Qed.

Lemma keyed_run evs w : tables_keyed w -> tables_keyed (run evs w).
Proof.
  revert w. induction evs as [|ev evs IH]; intros w HK; [done|].
  simpl. by apply IH, keyed_step.
Qed.

(** *** Lists read off a keyed table *)

Lemma keyed_tail {V} (f : V -> string) k v (m : list (string * V)) :
  JSMap.wf ((k, v) :: m) ->
  (forall i x, JSMap.get i ((k, v) :: m) = Some x -> f x = i) ->
  f v = k /\ (k ∉ JSMap.keys m) /\ JSMap.wf m
  /\ (forall i x, JSMap.get i m = Some x -> f x = i).
Proof.
  intros [Hk Hwf]%NoDup_cons Hf. split_and!; try done.
  - apply Hf. simpl. by rewrite decide_True.
  - intros i x Hg. apply Hf. simpl. rewrite decide_False //.
    intros ->. apply Hk. by eapply JSMapFacts.get_Some_key.
Qed.

Lemma ids_are_keys {V} (f : V -> string) (m : list (string * V)) :
  JSMap.wf m -> (forall i x, JSMap.get i m = Some x -> f x = i) ->
  f <$> JSMap.values m = JSMap.keys m.
Proof.
  rewrite /JSMap.values /JSMap.keys.
  induction m as [|[k v] m IH]; intros Hwf Hf; csimpl; [done|].
  destruct (keyed_tail f k v m Hwf Hf) as (-> & _ & Hwf' & Hf').
  f_equal. by apply IH.
Qed.

(** Filtering the values on their id is deleting the key. *)
Lemma filter_values_delete {V} (f : V -> string) id (m : list (string * V)) :
  JSMap.wf m -> (forall i x, JSMap.get i m = Some x -> f x = i) ->
  filter (fun x => f x <> id) (JSMap.values m) = JSMap.values (JSMap.delete id m).
Proof.
  rewrite /JSMap.values.
  induction m as [|[k v] m IH]; intros Hwf Hf; csimpl; [done|].
  destruct (keyed_tail f k v m Hwf Hf) as (Hk & _ & Hwf' & Hf').
  destruct (decide (id = k)) as [->|Hne].
  - rewrite filter_cons_False; [by rewrite Hk; intros ?|]. by apply IH.
  - rewrite filter_cons_True; [by rewrite Hk|]. csimpl. f_equal. by apply IH.
Qed.

Lemma size_delete {V} id (v : V) (m : list (string * V)) :
  JSMap.wf m -> JSMap.get id m = Some v ->
  S (length (JSMap.delete id m)) = length m.
Proof.
  induction m as [|[k x] m IH]; intros Hwf Hg; [done|].
  apply NoDup_cons in Hwf as [Hk Hwf]. simpl in *.
  destruct (decide (id = k)) as [->|Hne].
  - rewrite JSMapFacts.delete_absent //.
  - simpl. f_equal. by apply IH.
Qed.

(** *** Who a fan-out reaches *)

Lemma filter_none {A} (P : A -> Prop) `{!forall x, Decision (P x)} (l : list A) :
  (forall x, x ∈ l -> ~ P x) -> filter P l = [].
Proof.
  induction l as [|a l IH]; intros Hn; [done|].
  rewrite filter_cons_False; [apply Hn, list_elem_of_here|].
  apply IH. intros x Hx. by apply Hn, list_elem_of_further.
Qed.

Lemma fanout_open w message a :
  a ∈ fanout w message ->
  exists p, a = Send (peer_ws p) message
            /\ p ∈ JSMap.values (connectedPeers w)
            /\ is_open (readyState w) (peer_ws p) = true.
Proof.
  rewrite /fanout. intros [p [-> [Ho Hin]%list_elem_of_filter]]%list_elem_of_fmap.
  by exists p.
Qed.

Lemma fanout_skips w message h :
  is_open (readyState w) h = false ->
  Forall (fun a => ~ sent_to h a) (fanout w message).
Proof.
  intros Hc. apply Forall_forall. intros a (p & -> & _ & Ho)%fanout_open.
  simpl. intros E. congruence.
Qed.

Lemma fanout_reaches w message p :
  p ∈ JSMap.values (connectedPeers w) ->
  is_open (readyState w) (peer_ws p) = true ->
  Send (peer_ws p) message ∈ fanout w message.
Proof.
  intros Hin Ho. rewrite /fanout. apply list_elem_of_fmap. exists p.
  split; [done|]. by apply list_elem_of_filter.
Qed.

Lemma is_open_insert (rs : gmap handle ReadyState) h h' s :
  is_open (<[h := s]> rs) h'
  = if decide (h = h') then bool_decide (s = OPEN) else is_open rs h'.
Proof.
  rewrite /is_open. destruct (decide (h = h')) as [->|Hne].
  - rewrite lookup_insert_eq. apply bool_decide_ext. split; congruence.
  - by rewrite lookup_insert_ne.
Qed.

(** *** The shutdown loop *)

Lemma sigint_run cs w :
  let w' := exec (on_sigint cs) w in
  connectedPeers w' = connectedPeers w
  /\ deviceInfo w' = deviceInfo w
  /\ listeners w' = listeners w
  /\ clock_reads w' = clock_reads w
  /\ (forall h, h ∈ cs -> is_open (readyState w') h = false)
  /\ (forall h, is_open (readyState w) h = false ->
        readyState w' !! h = readyState w !! h)
  /\ (forall h, h ∉ cs -> readyState w' !! h = readyState w !! h)
  /\ (forall h, is_open (readyState w) h = true -> h ∈ cs ->
        readyState w' !! h = Some CLOSING)
  /\ exists closed,
       outbox w' = outbox w ++ (Close <$> closed)
       /\ (forall h, h ∈ closed <-> h ∈ cs /\ is_open (readyState w) h = true)
       /\ NoDup closed.
Proof.
  revert w. induction cs as [|c cs IH]; intros w.
  - rewrite /exec /=. split_and!; try done.
    + by intros h ?%elem_of_nil.
    + by intros h _ ?%elem_of_nil.
    + exists []. rewrite app_nil_r. split_and!; [done| |apply NoDup_nil_2].
      intros h. split; [by intros ?%elem_of_nil|by intros [?%elem_of_nil _]].
  - rewrite /exec /on_sigint /= /bind /gets /=.
    destruct (is_open (readyState w) c) eqn:Ho.
    + rewrite /close /bind /modify /=.
      set (w1 := with_outbox (fun o => o ++ [Close c])
                   (with_readyState (ws_close c) w)).
      destruct (IH w1) as (E1 & E2 & E3 & E4 & C5 & C6 & C7 & C8 & closed & E9 & M9 & N9).
      rewrite /exec /on_sigint in E1 E2 E3 E4 C5 C6 C7 C8 E9.
      assert (readyState w !! c = Some OPEN) as Hc
        by by apply bool_decide_eq_true in Ho.
      assert (readyState w1 = <[c := CLOSING]> (readyState w)) as Hrs
        by by rewrite /w1 /= /ws_close Hc.
      assert (is_open (readyState w1) c = false) as Hc1.
      { rewrite Hrs is_open_insert decide_True //. }
      split_and!; try done.
      * intros h [->|Hin]%elem_of_cons; [|by apply C5].
        rewrite /is_open. apply bool_decide_eq_false. rewrite C6 // Hrs.
        by rewrite lookup_insert_eq.
      * intros h Hh. destruct (decide (c = h)) as [->|Hne]; [congruence|].
        rewrite C6; [rewrite Hrs is_open_insert decide_False //|].
        rewrite Hrs lookup_insert_ne //.
      * intros h [Hne Hnin]%not_elem_of_cons. rewrite C7 // Hrs.
        rewrite lookup_insert_ne //.
      * intros h Hh Hin. destruct (decide (c = h)) as [->|Hne].
        -- rewrite C6 // Hrs. by rewrite lookup_insert_eq.
        -- apply elem_of_cons in Hin as [->|Hin]; [done|].
           apply C8; [|done]. rewrite Hrs is_open_insert decide_False //.
      * exists (c :: closed). rewrite E9 /= -app_assoc. split_and!; [done| |].
        -- intros h. rewrite !elem_of_cons M9 Hrs is_open_insert.
           destruct (decide (c = h)) as [->|Hne]; [tauto|].
           split; [intros [->|[? ?]]; [done|tauto] | intros [[->|?] ?]; [done|tauto]].
        -- apply NoDup_cons. split; [|done].
           intros [_ Hx]%M9. congruence.
    + rewrite /ret.
      destruct (IH w) as (E1 & E2 & E3 & E4 & C5 & C6 & C7 & C8 & closed & E9 & M9 & N9).
      rewrite /exec /on_sigint in E1 E2 E3 E4 C5 C6 C7 C8 E9.
      split_and!; try done.
      * intros h [->|Hin]%elem_of_cons; [|by apply C5].
        rewrite /is_open. apply bool_decide_eq_false. rewrite C6 //.
        by apply bool_decide_eq_false in Ho.
      * intros h [Hne Hnin]%not_elem_of_cons. by apply C7.
      * intros h Hh [->|Hin]%elem_of_cons; [congruence|]. by apply C8.
      * exists closed. split_and!; [done| |done].
        intros h. rewrite elem_of_cons M9. split; [tauto|].
        intros [[->|Hin] Hh]; [congruence|done].
Qed.
End Frames.
End ServerFrames.

(** * src/server.js: further properties of the handlers and routes *)

Module ServerProperties.
Import Server ServerFacts RegistryFacts HttpDeviceFacts ServerRoutes ServerFrames.

#[local] Arguments broadcastPeerUpdate : simpl never.

Section Properties.
Context `{Runtime}.
Implicit Types (w : world) (h : handle).

(** X1: whatever reaches the server (connections, frames, disconnections,
    HTTP registrations and deletions, in any order and with any ids drawn),
    both tables keep distinct keys, every registry entry and every device
    sits under the id it carries, and no two devices of a snapshot share an
    id.  (A frame whose [type] or [targetPeerId] the log line cannot print
    ends in the [catch], as a frame that does not parse does.) *)
Theorem tables_always_keyed evs :
  let w := run evs init in
  tables_keyed w
  /\ NoDup (d_id <$> snapshot w)
  /\ NoDup (peer_peerId <$> JSMap.values (connectedPeers w)).
Proof.
  intros w.
  assert (tables_keyed w) as HK by apply keyed_run, keyed_init.
  split; [done|]. destruct HK as (W1 & W2 & K1 & K2). split.
  - rewrite /snapshot (ids_are_keys d_id) //.
  - rewrite (ids_are_keys peer_peerId) //.
Qed.

(** X2: a [discovery-request] (with a [targetPeerId] the log line can
    print, or none) from a participant whose registry entry has an open
    socket is answered on that socket only, with every device of the table
    except the one stored under the requester's own id, in table order; the
    tables are not changed.  When the requester's entry is missing or its
    socket is not open, nothing is sent and nothing changes. *)
Theorem discovery_lists_the_others w h peerId data :
  tables_keyed w ->
  listeners w !! h = Some peerId ->
  is_str (get_prop data "type") "discovery-request" = true ->
  loggable (get_prop data "targetPeerId") = true ->
  let w' := exec (step (Message h (Some data))) w in
  (forall pc, JSMap.get peerId (connectedPeers w) = Some pc ->
     is_open (readyState w) (peer_ws pc) = true ->
     w' = with_outbox
            (fun o => o ++
               [Send (peer_ws pc)
                  (JObj [("type", JStr "discovery-response");
                         ("devices",
                          JArr (device_json
                                  <$> JSMap.values
                                        (JSMap.delete peerId (deviceInfo w))));
                         ("discoveredAt",
                          JStr (toISOString (Date_now (clock_reads w))))])])
            (with_clock_reads S w))
  /\ (peer_open w (JSMap.get peerId (connectedPeers w)) = false -> w' = w).
Proof.
  intros (_ & W2 & _ & K2) Hl Hs _ w'. subst w'.
  rewrite /exec /step /bind /gets /= Hl /on_message /bind dispatch_discovery //=.
  rewrite discovery_run. split.
  - intros pc -> ->. by rewrite (filter_values_delete d_id).
  - destruct (JSMap.get peerId (connectedPeers w)) as [pc|]; [|done].
    simpl. by intros ->.
Qed.

(** X3: a [peer-list-request] (with a [targetPeerId] the log line can
    print, or none) from a participant whose registry entry has an open
    socket is answered on that socket with the registry without the
    requester's own entry, in registry order, and [totalPeers] is the size of
    the registry minus one. *)
Theorem peer_list_is_the_registry_without_requester w h peerId data pc :
  tables_keyed w ->
  listeners w !! h = Some peerId ->
  is_str (get_prop data "type") "peer-list-request" = true ->
  loggable (get_prop data "targetPeerId") = true ->
  JSMap.get peerId (connectedPeers w) = Some pc ->
  is_open (readyState w) (peer_ws pc) = true ->
  exec (step (Message h (Some data))) w
  = with_outbox
      (fun o => o ++
         [Send (peer_ws pc)
            (JObj [("type", JStr "peer-list");
                   ("peers",
                    JArr (peer_json
                            <$> JSMap.values
                                  (JSMap.delete peerId (connectedPeers w))));
                   ("totalPeers",
                    JInt (Z.of_nat (JSMap.size (connectedPeers w)) - 1));
                   ("timestamp",
                    JStr (toISOString (Date_now (clock_reads w))))])])
      (with_clock_reads S w).
Proof.
  intros (W1 & _ & K1 & _) Hl Hs _ Hg Ho.
  rewrite /exec /step /bind /gets /= Hl /on_message /bind dispatch_peer_list //=.
  rewrite peer_list_run Hg Ho. cbv zeta.
  rewrite (filter_values_delete peer_peerId) // length_fmap.
  pose proof (size_delete peerId pc _ W1 Hg) as Hsz.
  rewrite /JSMap.values length_fmap /JSMap.size -Hsz.
  by replace (Z.of_nat (S (length (JSMap.delete peerId (connectedPeers w)))) - 1)
    with (Z.of_nat (length (JSMap.delete peerId (connectedPeers w)))) by lia.
Qed.

(** X4: a frame that parses to anything but [null] and whose [type] is none
    of the six the server knows (or is missing) is dropped: no reply, not
    even an error, and no change of the world.  This is for a [type] and a
    [targetPeerId] that the log lines can print. *)
Theorem unrecognised_type_dropped w h peerId data :
  listeners w !! h = Some peerId ->
  data <> JNull ->
  known_type data = false ->
  loggable (get_prop data "type") = true ->
  loggable (get_prop data "targetPeerId") = true ->
  exec (step (Message h (Some data))) w = w.
Proof.
  intros Hl Hn Hk _ _.
  by rewrite /exec /step /bind /gets /= Hl /on_message /bind dispatch_unknown.
Qed.

(** X5: [POST /api/devices] with a missing or falsy [name] or [type] is
    answered 400 and does nothing else: no id is drawn, the clock is not
    read, no device is stored and nothing is fanned out. *)
Theorem post_rejected w body :
  accepted body = false ->
  exec (step (PostDevice body)) w
  = with_outbox
      (fun o => o ++
         [Respond 400
            (JObj [("error", JStr "Device name and type are required")])])
      w.
Proof. intros Ha. by rewrite post_run Ha. Qed.

(** X6: deleting the same device twice over HTTP: whatever the first
    request did, the second is answered 404 and changes nothing else (no
    socket is closed, nothing is fanned out). *)
Theorem delete_twice_not_found w deviceId :
  let w1 := exec (step (DeleteDevice deviceId)) w in
  exec (step (DeleteDevice deviceId)) w1
  = with_outbox
      (fun o => o ++
         [Respond 404 (JObj [("error", JStr "Device not found");
                             ("deviceId", JStr deviceId)])])
      w1.
Proof.
  intros w1. rewrite delete_run /JSMap.has.
  by rewrite /w1 delete_removes.
Qed.

(** X7: [DELETE /api/devices/:deviceId] for the device of a connected
    participant removes the device from the table and calls [close] on the
    participant's socket, which starts closing; the registry is not touched,
    so the entry stays (with the device still attached to it) until the
    socket's [close] event.  The calls are the [close], one fan-out that
    skips the closing socket, and the 200 response. *)
Theorem delete_closes_but_keeps_entry w deviceId p :
  JSMap.has deviceId (deviceInfo w) = true ->
  JSMap.get deviceId (connectedPeers w) = Some p ->
  is_open (readyState w) (peer_ws p) = true ->
  let w' := exec (step (DeleteDevice deviceId)) w in
  JSMap.get deviceId (deviceInfo w') = None
  /\ connectedPeers w' = connectedPeers w
  /\ readyState w' = <[peer_ws p := CLOSING]> (readyState w)
  /\ calls_since w w'
     = Close (peer_ws p)
       :: fanout w' (peer_update_message w'
                       (toISOString (Date_now (clock_reads w))))
       ++ [Respond 200
             (JObj [("message", JStr "Device deleted");
                    ("deviceId", JStr deviceId);
                    ("timestamp",
                     JStr (toISOString (Date_now (S (clock_reads w)))))])]
  /\ Forall (fun a => ~ sent_to (peer_ws p) a) (calls_since w w').
Proof.
  intros Hd Hg Ho w'.
  assert (readyState w !! peer_ws p = Some OPEN) as Hrs
    by by apply bool_decide_eq_true in Ho.
  assert (calls_since w w'
          = Close (peer_ws p)
            :: fanout w' (peer_update_message w'
                            (toISOString (Date_now (clock_reads w))))
            ++ [Respond 200
                  (JObj [("message", JStr "Device deleted");
                         ("deviceId", JStr deviceId);
                         ("timestamp",
                          JStr (toISOString (Date_now (S (clock_reads w)))))])]
          /\ readyState w' = <[peer_ws p := CLOSING]> (readyState w)
          /\ connectedPeers w' = connectedPeers w) as (Hc & Hr & Hp).
  { subst w'. rewrite delete_run Hd Hg Ho. cbv zeta.
    rewrite /calls_since /= -app_assoc drop_app_length /ws_close Hrs //. }
  split_and!; try done.
  - apply delete_removes.
  - rewrite Hc. apply Forall_cons. split; [by intros []|].
    apply Forall_app. split.
    + apply fanout_skips. rewrite Hr is_open_insert decide_True //.
    + apply Forall_cons. split; [by intros []|]. apply Forall_nil_2.
Qed.

(** X8: a new connection is stored in the registry under the id it is
    given, without a device; its listeners work with that id; the socket
    first receives the [welcome] carrying the id and then the fan-out of the
    [peer-update], which reaches the new socket as well.  The device table is
    not touched. *)
Theorem connection_welcomed w h :
  let id := next_id w in
  let w' := exec (step (Connection h)) w in
  let update :=
    peer_update_message w' (toISOString (Date_now (4 + clock_reads w))) in
  JSMap.get id (connectedPeers w')
  = Some {| peer_ws := h; peer_connectedAt := Date_now (2 + clock_reads w);
            peer_peerId := id; peer_device := None |}
  /\ listeners w' !! h = Some id
  /\ deviceInfo w' = deviceInfo w
  /\ calls_since w w'
     = Send h (welcome id (toISOString (Date_now (3 + clock_reads w))))
       :: fanout w' update
  /\ Send h update ∈ fanout w' update.
Proof.
  intros id w' update.
  assert (JSMap.get id (connectedPeers w')
          = Some {| peer_ws := h; peer_connectedAt := Date_now (2 + clock_reads w);
                    peer_peerId := id; peer_device := None |}
          /\ listeners w' !! h = Some id
          /\ deviceInfo w' = deviceInfo w
          /\ readyState w' !! h = Some OPEN
          /\ calls_since w w'
             = Send h (welcome id (toISOString (Date_now (3 + clock_reads w))))
               :: fanout w' update) as (E1 & E2 & E3 & E4 & E5).
  { subst update w'. rewrite connection_run. cbv zeta.
    rewrite /calls_since /= drop_app_length JSMapFacts.get_set_eq
      !lookup_insert_eq //. }
  split_and!; try done.
  apply (fanout_reaches w' update
           {| peer_ws := h; peer_connectedAt := Date_now (2 + clock_reads w);
              peer_peerId := id; peer_device := None |}).
  - rewrite /JSMap.values. apply list_elem_of_fmap. eexists (id, _).
    split; [done|]. by apply JSMapFacts.get_Some_elem.
  - by apply bool_decide_eq_true.
Qed.

(** X9: the [close] event of a socket removes the entry stored under the
    socket's id from the registry and the device stored under that id from
    the device table; entries and devices under other ids are untouched.  The
    only calls are one fan-out of the new snapshot, and it does not reach the
    closed socket. *)
Theorem close_forgets_peer w h id :
  listeners w !! h = Some id ->
  let w' := exec (step (Closed h)) w in
  JSMap.get id (connectedPeers w') = None
  /\ JSMap.get id (deviceInfo w') = None
  /\ (forall k, k <> id ->
        JSMap.get k (connectedPeers w') = JSMap.get k (connectedPeers w)
        /\ JSMap.get k (deviceInfo w') = JSMap.get k (deviceInfo w))
  /\ calls_since w w'
     = fanout w' (peer_update_message w'
                    (toISOString (Date_now (S (clock_reads w)))))
  /\ Forall (fun a => ~ sent_to h a) (calls_since w w').
Proof.
  intros Hl w'.
  assert (connectedPeers w' = JSMap.delete id (connectedPeers w)
          /\ deviceInfo w' = JSMap.delete id (deviceInfo w)
          /\ readyState w' !! h = Some CLOSED
          /\ calls_since w w'
             = fanout w' (peer_update_message w'
                            (toISOString (Date_now (S (clock_reads w))))))
    as (E1 & E2 & E3 & E4).
  { subst w'. rewrite (closed_run w h id) //. cbv zeta.
    rewrite /calls_since /= drop_app_length lookup_insert_eq //. }
  rewrite E1 E2. split_and!.
  - apply JSMapFacts.get_delete_eq.
  - apply JSMapFacts.get_delete_eq.
  - intros k Hk. rewrite !JSMapFacts.get_delete_ne //.
  - done.
  - rewrite E4. apply fanout_skips. apply bool_decide_eq_false. by rewrite E3.
Qed.

(** X10: right after a connection, [GET /api/peers/:peerId] with the id of
    the [welcome] message answers 200 with that id, no device, the time the
    entry was stored and [online: true]. *)
Theorem lookup_after_connect w h :
  let id := next_id w in
  let w1 := exec (step (Connection h)) w in
  last_call (exec (get_api_peers_id id) w1)
  = Some (Respond 200
            (JObj [("peerId", JStr id);
                   ("device", JNull);
                   ("connectedAt",
                    JStr (toISOString (Date_now (2 + clock_reads w))));
                   ("online", JBool true);
                   ("timestamp",
                    JStr (toISOString (Date_now (5 + clock_reads w))))])).
Proof.
  intros id w1. subst w1. rewrite connection_run. cbv zeta.
  rewrite /exec /get_api_peers_id /bind /gets /= JSMapFacts.get_set_eq /=.
  rewrite /now_iso /bind /now /ret /respond /modify /last_call /= last_snoc.
  rewrite /is_open lookup_insert_eq bool_decide_eq_true_2 //.
Qed.

(** X11: after [DELETE /api/devices/:deviceId] for the device of a
    connected participant, [GET /api/devices] no longer lists the device, but
    [GET /api/peers/:peerId] still answers 200 for the participant and still
    shows the deleted device attached to it, with [online: false]. *)
Theorem deleted_device_still_attached w id d p :
  tables_keyed w ->
  JSMap.get id (deviceInfo w) = Some d ->
  JSMap.get id (connectedPeers w) = Some p ->
  peer_device p = Some d ->
  let w1 := exec (step (DeleteDevice id)) w in
  last_call (exec (get_api_peers_id id) w1)
  = Some (Respond 200
            (JObj [("peerId", JStr id);
                   ("device", device_json d);
                   ("connectedAt", JStr (toISOString (peer_connectedAt p)));
                   ("online", JBool false);
                   ("timestamp",
                    JStr (toISOString (Date_now (2 + clock_reads w))))]))
  /\ exists devices,
       last_call (exec get_api_devices w1)
       = Some (Respond 200
                 (JObj [("totalRegistered", JInt (Z.of_nat (length devices)));
                        ("devices", JArr devices);
                        ("timestamp",
                         JStr (toISOString (Date_now (2 + clock_reads w))))]))
       /\ device_json d ∉ devices.
Proof.
  intros (W1 & W2 & K1 & K2) Hd Hp Hdev w1.
  assert (connectedPeers w1 = connectedPeers w
          /\ deviceInfo w1 = JSMap.delete id (deviceInfo w)
          /\ is_open (readyState w1) (peer_ws p) = false
          /\ clock_reads w1 = (2 + clock_reads w)%nat) as (E1 & E2 & E3 & E4).
  { subst w1. rewrite delete_run /JSMap.has Hd Hp. cbv zeta.
    destruct (is_open (readyState w) (peer_ws p)) eqn:Ho; simpl.
    - split_and!; try done. apply bool_decide_eq_false.
      apply Server2Facts.ws_close_not_open.
    - done. }
  split.
  - rewrite /exec /get_api_peers_id /bind /gets /= E1 Hp /= E3.
    rewrite /now_iso /bind /now /ret /respond /modify /last_call /= last_snoc.
    rewrite E4 Hdev (K1 id p Hp) //.
  - exists (device_json <$> JSMap.values (JSMap.delete id (deviceInfo w))).
    split.
    + rewrite /exec /get_api_devices /bind /gets /now_iso /bind /now /ret
        /respond /modify /last_call /= last_snoc E2 E4 //.
    + intros [d' [Hj Hin]]%list_elem_of_fmap.
      assert (d_id d' = id) as Hid.
      { injection Hj as Hj _. rewrite -Hj. by apply K2. }
      apply JSMapFacts.elem_values in Hin as [k Hk];
        [|by apply JSMapFacts.wf_delete].
      destruct (decide (k = id)) as [->|Hne].
      * by rewrite JSMapFacts.get_delete_eq in Hk.
      * rewrite JSMapFacts.get_delete_ne // in Hk.
        apply K2 in Hk. congruence.
Qed.

(** X12: the SIGINT handler calls [close] once on every client socket that
    is open and on no other; afterwards no client socket is open, so a
    fan-out over a registry whose sockets are all clients reaches nobody.  It
    empties neither the registry nor the device table: entries leave only
    when the [close] events arrive. *)
Theorem sigint_closes_every_client cs w :
  let w' := exec (on_sigint cs) w in
  (forall h, h ∈ cs -> is_open (readyState w') h = false)
  /\ (forall h, h ∈ cs -> is_open (readyState w) h = true ->
        readyState w' !! h = Some CLOSING)
  /\ (forall h, h ∉ cs \/ is_open (readyState w) h = false ->
        readyState w' !! h = readyState w !! h)
  /\ (exists closed,
        calls_since w w' = Close <$> closed
        /\ NoDup closed
        /\ forall h, h ∈ closed <-> h ∈ cs /\ is_open (readyState w) h = true)
  /\ connectedPeers w' = connectedPeers w
  /\ deviceInfo w' = deviceInfo w
  /\ ((forall p, p ∈ JSMap.values (connectedPeers w) -> peer_ws p ∈ cs) ->
      forall message, fanout w' message = []).
Proof.
  intros w'.
  destruct (sigint_run cs w)
    as (E1 & E2 & E3 & E4 & C5 & C6 & C7 & C8 & closed & E9 & M9 & N9).
  fold w' in E1, E2, E3, E4, C5, C6, C7, C8, E9.
  split_and!; try done.
  - intros h Hin Ho. by apply C8.
  - intros h [Hn|Hc]; [by apply C7|by apply C6].
  - exists closed. by rewrite /calls_since E9 drop_app_length.
  - intros Hall message. rewrite /fanout E1.
    rewrite filter_none //.
    intros p Hp. rewrite C5 //. by apply Hall.
Qed.

(** X30: a [register-device] message (with a [targetPeerId] the log line
    can print, or none) from a participant whose registry entry has an open
    socket stores the device built from the payload under the participant's
    id, attaches it to the registry entry, fans the new snapshot out to every
    open socket and then sends the confirmation [device-registered], with the
    device, to the registrant, who therefore receives two messages. *)
Theorem registration_confirmed_to_registrant w h peerId data p :
  listeners w !! h = Some peerId ->
  is_str (get_prop data "type") "register-device" = true ->
  loggable (get_prop data "targetPeerId") = true ->
  JSMap.get peerId (connectedPeers w) = Some p ->
  is_open (readyState w) (peer_ws p) = true ->
  let device :=
    build_device peerId (get_prop data "payload")
      (toISOString (Date_now (clock_reads w))) in
  let w' := exec (step (Message h (Some data))) w in
  let update :=
    peer_update_message w' (toISOString (Date_now (S (clock_reads w)))) in
  JSMap.get peerId (deviceInfo w') = Some device
  /\ JSMap.get peerId (connectedPeers w') = Some (attach device p)
  /\ calls_since w w'
     = fanout w' update
       ++ [Send (peer_ws p)
             (JObj [("type", JStr "device-registered");
                    ("device", device_json device)])]
  /\ Send (peer_ws p) update ∈ fanout w' update.
Proof.
  intros Hl Hs _ Hg Ho device w' update.
  assert (w' = (handleDeviceRegistration peerId (get_prop data "payload") w).2)
    as Hw'.
  { by rewrite /w' /exec /step /bind /gets /= Hl /on_message /bind
      dispatch_register. }
  assert (deviceInfo w' = JSMap.set peerId device (deviceInfo w)
          /\ connectedPeers w' = JSMap.set peerId (attach device p) (connectedPeers w)
          /\ readyState w' = readyState w
          /\ calls_since w w'
             = fanout w' update
               ++ [Send (peer_ws p)
                     (JObj [("type", JStr "device-registered");
                            ("device", device_json device)])])
    as (E1 & E2 & E3 & E4).
  { rewrite /update Hw' /device.
    rewrite /handleDeviceRegistration /bind /gets /now_iso /bind /now /ret
      /modify /= Hg /modify broadcastPeerUpdate_run /=.
    rewrite JSMapFacts.get_set_eq /= Ho /send /modify /calls_since /=.
    by rewrite -app_assoc drop_app_length. }
  split_and!; try done.
  - rewrite E1. apply JSMapFacts.get_set_eq.
  - rewrite E2. apply JSMapFacts.get_set_eq.
  - apply (fanout_reaches w' update (attach device p)).
    + rewrite /JSMap.values. apply list_elem_of_fmap. eexists (peerId, _).
      split; [done|]. apply JSMapFacts.get_Some_elem.
      rewrite E2. apply JSMapFacts.get_set_eq.
    + by rewrite E3.
Qed.
End Properties.

(** ** The statements at concrete inputs *)

Lemma two_peers_keyed : @tables_keyed Scenario.two_peers.
Proof. apply keyed_run, keyed_init. Qed.

Lemma discovery_lists_the_others_witness :
  @exec world unit
    (@step Scenario.demo (Message 1%nat (Some Scenario.discovery_request)))
    Scenario.two_peers
  = with_outbox
      (fun o => o ++
         [Send 1%nat
            (JObj [("type", JStr "discovery-response");
                   ("devices",
                    JArr (device_json
                            <$> JSMap.values
                                  (JSMap.delete Scenario.p2
                                     (deviceInfo Scenario.two_peers))));
                   ("discoveredAt", JStr "1700000000012")])])
      (with_clock_reads S Scenario.two_peers).
Proof.
  refine (proj1 (@discovery_lists_the_others Scenario.demo Scenario.two_peers
                   1%nat Scenario.p2 Scenario.discovery_request
                   two_peers_keyed _ _ _)
            ScenarioMore.second_peer _ _);
    vm_compute; reflexivity.
Defined.

(** The second participant of [Scenario.two_peers] asks for the devices and
    for the peers: it gets the laptop of the first, and the first. *)
Example discovery_run_two_peers :
  JSMap.values (JSMap.delete Scenario.p2 (deviceInfo Scenario.two_peers))
  = [ScenarioMore.laptop]
  /\ JSMap.values (JSMap.delete Scenario.p2 (connectedPeers Scenario.two_peers))
     = [ScenarioMore.first_peer].
Proof. vm_compute. done. Qed.

Lemma peer_list_is_the_registry_without_requester_witness :
  @exec world unit
    (@step Scenario.demo (Message 1%nat (Some ScenarioMore.peer_list_request)))
    Scenario.two_peers
  = with_outbox
      (fun o => o ++
         [Send 1%nat
            (JObj [("type", JStr "peer-list");
                   ("peers",
                    JArr (@peer_json Scenario.demo
                            <$> JSMap.values
                                  (JSMap.delete Scenario.p2
                                     (connectedPeers Scenario.two_peers))));
                   ("totalPeers",
                    JInt (Z.of_nat (JSMap.size (connectedPeers Scenario.two_peers))
                          - 1));
                   ("timestamp", JStr "1700000000012")])])
      (with_clock_reads S Scenario.two_peers).
Proof.
  apply (@peer_list_is_the_registry_without_requester Scenario.demo
           Scenario.two_peers 1%nat Scenario.p2 ScenarioMore.peer_list_request
           ScenarioMore.second_peer two_peers_keyed);
    vm_compute; reflexivity.
Defined.

Lemma unrecognised_type_dropped_witness :
  @exec world unit (@step Scenario.demo (Message 1%nat (Some ScenarioMore.ping)))
    Scenario.two_peers
  = Scenario.two_peers.
Proof.
  apply (@unrecognised_type_dropped Scenario.demo Scenario.two_peers 1%nat
           Scenario.p2 ScenarioMore.ping).
  - vm_compute; reflexivity.
  - discriminate.
  - vm_compute; reflexivity.
  - reflexivity.
  - reflexivity.
Defined.

Lemma post_rejected_witness :
  @exec world unit (@step Scenario.demo (PostDevice ScenarioMore.nameless))
    Scenario.two_peers
  = with_outbox
      (fun o => o ++
         [Respond 400
            (JObj [("error", JStr "Device name and type are required")])])
      Scenario.two_peers.
Proof.
  apply (@post_rejected Scenario.demo Scenario.two_peers ScenarioMore.nameless).
  vm_compute; reflexivity.
Defined.

Lemma delete_closes_but_keeps_entry_witness :
  let w := Scenario.two_peers in
  let w' := @exec world unit (@step Scenario.demo (DeleteDevice Scenario.p1)) w in
  JSMap.get Scenario.p1 (deviceInfo w') = None
  /\ connectedPeers w' = connectedPeers w
  /\ readyState w' = <[0%nat := CLOSING]> (readyState w).
Proof.
  pose proof (@delete_closes_but_keeps_entry Scenario.demo Scenario.two_peers
                Scenario.p1 ScenarioMore.first_peer
                ltac:(vm_compute; reflexivity) ltac:(vm_compute; reflexivity)
                ltac:(vm_compute; reflexivity)) as (E1 & E2 & E3 & _).
  exact (conj E1 (conj E2 E3)).
Defined.

(** The laptop's owner is not told that its device was deleted: the only
    message goes to the other participant. *)
Example delete_run_two_peers :
  let w' := @exec world unit (@step Scenario.demo (DeleteDevice Scenario.p1))
              Scenario.two_peers in
  calls_since Scenario.two_peers w'
  = [Close 0%nat;
     Send 1%nat (peer_update_message w' "1700000000012");
     Respond 200 (JObj [("message", JStr "Device deleted");
                        ("deviceId", JStr Scenario.p1);
                        ("timestamp", JStr "1700000000013")])]
  /\ JSMap.keys (connectedPeers w') = [Scenario.p1; Scenario.p2]
  /\ JSMap.keys (deviceInfo w') = [].
Proof. vm_compute. done. Qed.

Lemma close_forgets_peer_witness :
  let w := Scenario.two_peers in
  let w' := @exec world unit (@step Scenario.demo (Closed 0%nat)) w in
  JSMap.get Scenario.p1 (connectedPeers w') = None
  /\ JSMap.get Scenario.p1 (deviceInfo w') = None.
Proof.
  pose proof (@close_forgets_peer Scenario.demo Scenario.two_peers 0%nat
                Scenario.p1 ltac:(vm_compute; reflexivity)) as (E1 & E2 & _).
  exact (conj E1 E2).
Defined.

Lemma deleted_device_still_attached_witness :
  let w1 := @exec world unit (@step Scenario.demo (DeleteDevice Scenario.p1))
              Scenario.two_peers in
  @last_call (@exec world unit (@get_api_peers_id Scenario.demo Scenario.p1) w1)
  = Some (Respond 200
            (JObj [("peerId", JStr Scenario.p1);
                   ("device", device_json ScenarioMore.laptop);
                   ("connectedAt", JStr "1700000000002");
                   ("online", JBool false);
                   ("timestamp", JStr "1700000000014")])).
Proof.
  exact (proj1 (@deleted_device_still_attached Scenario.demo Scenario.two_peers
                  Scenario.p1 ScenarioMore.laptop ScenarioMore.first_peer
                  two_peers_keyed ltac:(vm_compute; reflexivity)
                  ltac:(vm_compute; reflexivity) eq_refl)).
Defined.

Lemma registration_confirmed_to_registrant_witness :
  let device :=
    @build_device Scenario.p2
      (get_prop Scenario.register_laptop "payload") "1700000000012" in
  let w' := @exec world unit
              (@step Scenario.demo (Message 1%nat (Some Scenario.register_laptop)))
              Scenario.two_peers in
  JSMap.get Scenario.p2 (deviceInfo w') = Some device
  /\ JSMap.get Scenario.p2 (connectedPeers w')
     = Some (attach device ScenarioMore.second_peer).
Proof.
  pose proof (@registration_confirmed_to_registrant Scenario.demo
                Scenario.two_peers 1%nat Scenario.p2 Scenario.register_laptop
                ScenarioMore.second_peer
                ltac:(vm_compute; reflexivity) eq_refl eq_refl
                ltac:(vm_compute; reflexivity) ltac:(vm_compute; reflexivity))
    as (E1 & E2 & _).
  exact (conj E1 E2).
Defined.

(** The second participant registers: both open sockets get the new
    snapshot, then the registrant gets its confirmation. *)
Example registration_run_two_peers :
  let w' := @exec world unit
              (@step Scenario.demo (Message 1%nat (Some Scenario.register_laptop)))
              Scenario.two_peers in
  let update := peer_update_message w' "1700000000013" in
  calls_since Scenario.two_peers w'
  = [Send 0%nat update; Send 1%nat update;
     Send 1%nat
       (JObj [("type", JStr "device-registered");
              ("device",
               JObj [("id", JStr Scenario.p2); ("name", JStr "Laptop");
                     ("type", JStr "client"); ("capabilities", JArr []);
                     ("registeredAt", JStr "1700000000012")])])].
Proof. vm_compute. done. Qed.
End ServerProperties.

(** * The second server: the handlers, run *)

Module Server2Frames.
Import Server2 Server2Facts Server2Routes.

#[local] Arguments broadcastDeviceList : simpl never.

Section Frames.
Context `{Runtime}.
Implicit Types (w : world) (h : handle).

Lemma dispatch_cases2 h message w :
  message <> JNull ->
  dispatch h message w
  = bind (if is_str (get_prop message "type") "register" then
            handleDeviceRegistration h message
          else if is_str (get_prop message "type") "webrtc-signaling" then
            handleWebRTCSignaling h message
          else if is_str (get_prop message "type") "heartbeat" then
            handleHeartbeat h
          else if is_str (get_prop message "type") "get-device-list" then
            broadcastDeviceList
          else logger) (fun _ => ret Returned) w.
Proof. by destruct message. Qed.

Lemma typed_not_null (message : JSON) s :
  is_str (get_prop message "type") s = true -> message <> JNull.
Proof. by destruct message. Qed.

Lemma dispatch_signaling h message w :
  is_str (get_prop message "type") "webrtc-signaling" = true ->
  dispatch h message w = (Returned, (handleWebRTCSignaling h message w).2).
Proof.
  intros Hs. rewrite dispatch_cases2; [by eapply typed_not_null|].
  rewrite /bind (is_str_excludes _ _ "register" Hs) // Hs.
  by destruct (handleWebRTCSignaling h message w) as [[] ?].
Qed.

Lemma dispatch_device_list h message w :
  is_str (get_prop message "type") "get-device-list" = true ->
  dispatch h message w = (Returned, (broadcastDeviceList w).2).
Proof.
  intros Hs. rewrite dispatch_cases2; [by eapply typed_not_null|].
  rewrite /bind (is_str_excludes _ _ "register" Hs) //
    (is_str_excludes _ _ "webrtc-signaling" Hs) //
    (is_str_excludes _ _ "heartbeat" Hs) // Hs.
  by destruct (broadcastDeviceList w) as [[] ?].
Qed.

Lemma dispatch_unknown_type h message w :
  message <> JNull -> known_type message = false ->
  dispatch h message w = (Returned, with_clock_reads S w).
Proof.
  intros Hn Hk. rewrite dispatch_cases2 //. move: Hk. rewrite /known_type /bind.
  move=> /orb_false_iff [/orb_false_iff [/orb_false_iff [-> ->] ->] ->] //.
Qed.

Lemma message_run h message w :
  message <> JNull ->
  exec (step (Message h (Some message))) w = (dispatch h message w).2.
Proof.
  intros Hn. rewrite /exec /step /on_message /bind dispatch_cases2 // /bind.
  by destruct (_ w) as [[] ?].
Qed.

(** Registration under any truthy id. *)
Lemma registration_any w h message v :
  get_prop message "deviceId" = Some v ->
  truthy (Some v) = true ->
  let key := (intern (Some v) w).1 in
  let info :=
    build_info h message v
      (Date_now (clock_reads w)) (Date_now (S (clock_reads w))) in
  let w' := (handleDeviceRegistration h message w).2 in
  connectedDevices w' = JSMap.set key info (connectedDevices w)
  /\ ws_deviceId w' = <[h := (v, key)]> (ws_deviceId w)
  /\ readyState w' = readyState w
  /\ clients w' = clients w
  /\ discoveryClients w' = discoveryClients w.
Proof.
  intros Hd Ht.
  assert (js_or (Some v) JNull = v) as Hor by by rewrite /js_or Ht.
  rewrite /handleDeviceRegistration /bind Hd Ht /ret Hor /intern.
  destruct (is_reference (Some v));
    rewrite /= /now /modify /logger /bind /now /ret /send /modify /=
      broadcastDeviceList_run //=.
Qed.

Lemma cleanup_run w h :
  (cleanupDevice h w).2
  = match ws_deviceId w !! h with
    | Some (_, key) =>
        let w1 :=
          with_offerCache (JSMap.delete key)
            (with_connectedDevices (JSMap.delete key) w) in
        with_outbox
          (fun o => o ++
             fanout w1 (device_list_message w1 (Date_now (2 + clock_reads w))))
          (with_clock_reads (fun n => 3 + n)%nat w1)
    | None => w
    end.
Proof.
  rewrite /cleanupDevice /bind /gets /=.
  destruct (ws_deviceId w !! h) as [[id key]|]; [|done].
  rewrite /modify /logger /bind /now /ret /= broadcastDeviceList_run //=.
Qed.

Lemma closed_run2 w h :
  exec (step (Closed h)) w
  = (cleanupDevice h
       (with_clients (filter (fun c => c <> h))
          (with_readyState <[h := CLOSED]> w))).2.
Proof. by rewrite /exec /step /bind /modify /=. Qed.

(** *** Signaling *)

Lemma signaling_run w h message :
  (handleWebRTCSignaling h message w).2
  = match ws_deviceId w !! h with
    | None =>
        with_outbox
          (fun o => o ++
             [Send h (JObj [("type", JStr "error");
                            ("message", JStr "Device not registered")])])
          w
    | Some deviceId =>
        if is_str (get_prop message "signalingType") "offer" then
          (handleOffer deviceId (get_prop message "payload") h w).2
        else if is_str (get_prop message "signalingType") "answer" then
          (handleAnswer deviceId (get_prop message "payload")
             (get_prop message "targetId") w).2
        else if is_str (get_prop message "signalingType") "ice-candidate" then
          (handleICECandidate deviceId (get_prop message "payload")
             (get_prop message "targetId") w).2
        else with_clock_reads S w
    end.
Proof.
  rewrite /handleWebRTCSignaling /bind /gets /=.
  destruct (ws_deviceId w !! h) as [deviceId|]; [|done].
  destruct (is_str _ "offer"); [done|].
  destruct (is_str _ "answer"); [done|].
  by destruct (is_str _ "ice-candidate").
Qed.

Lemma offer_run w h deviceId offer :
  (handleOffer deviceId offer h w).2
  = with_outbox
      (fun o => o ++
         ((fun c => Send c (offer_received deviceId.1 offer))
            <$> everyone_else w h))
      (with_offerCache
         (JSMap.set deviceId.2 (offer, Date_now (S (clock_reads w))))
         (with_clock_reads (fun n => S (S n)) w)).
Proof.
  rewrite /handleOffer /bind /logger /bind /now /ret /modify /broadcastMessage
    /bind /gets /= send_to_open_run //=.
Qed.

Lemma relay_run w deviceId message :
  is_reference (get_prop message "targetId") = false ->
  let target := key_of (get_prop message "targetId") 0 in
  let w' :=
    if is_str (get_prop message "signalingType") "answer" then
      (handleAnswer deviceId (get_prop message "payload")
         (get_prop message "targetId") w).2
    else
      (handleICECandidate deviceId (get_prop message "payload")
         (get_prop message "targetId") w).2 in
  outbox w'
  = outbox w ++
    match JSMap.get target (connectedDevices w) with
    | Some tp => [Send (di_ws tp) (relay_of deviceId.1 message)]
    | None => []
    end
  /\ connectedDevices w' = connectedDevices w
  /\ readyState w' = readyState w
  /\ ws_deviceId w' = ws_deviceId w
  /\ offerCache w' = offerCache w.
Proof.
  intros Hp. cbv zeta. rewrite /relay_of.
  destruct (is_str (get_prop message "signalingType") "answer").
  - rewrite /handleAnswer /bind /logger /bind /now /ret /intern Hp /gets /=.
    destruct (JSMap.get _ (connectedDevices w)) as [tp|]; simpl.
    + done.
    + by rewrite app_nil_r.
  - rewrite /handleICECandidate /bind /logger /bind /now /ret /intern Hp /gets /=.
    destruct (JSMap.get _ (connectedDevices w)) as [tp|]; simpl.
    + done.
    + by rewrite app_nil_r.
Qed.

(** *** The discovery socket *)

Lemma datagram_cases data r w :
  data <> JNull ->
  (on_datagram (Some data) r w).2
  = if is_str (get_prop data "type") "device-discovery" then
      with_outbox
        (fun o => o ++
           [Datagram (ri_address r)
              (JObj [("type", JStr "server-response");
                     ("device", advertised w)])])
        (with_clock_reads S w)
    else if datagram_throws (Some data) then with_clock_reads S w
    else if is_str (get_prop data "type") "device-announce" then
      (on_datagram (Some data) r w).2
    else w.
Proof.
  intros Hn. rewrite /on_datagram /handleDiscoveryMessage /bind /datagram_throws.
  destruct data; try done;
    (destruct (is_str _ "device-discovery"); [done|]);
    (destruct (is_str _ "device-announce"); [|done]); simpl;
    by destruct (obj_get _ _) as [[]|] || done.
Qed.

(** *** The discovery sweep *)

Lemma prune_loop ks w :
  (forEach ks (fun clientId =>
     (modify (with_discoveryClients (JSMap.delete clientId)) ;; logger)%prog) w).2
  = with_clock_reads (fun n => length ks + n)%nat
      (with_discoveryClients (fun m => foldl (fun m k => JSMap.delete k m) m ks) w).
Proof.
  revert w. induction ks as [|k ks IH]; intros w.
  - by destruct w.
  - cbn [forEach]. rewrite /bind /modify /logger /bind /now /ret /= IH.
    rewrite /with_clock_reads /with_discoveryClients /=. do 2 f_equal. lia.
Qed.

Lemma elem_stale_clients t k (m : list (jskey * DiscoveryRecord)) :
  JSMap.wf m ->
  k ∈ stale_clients t m <-> exists r, JSMap.get k m = Some r /\ unseen t r.
Proof.
  intros Hwf. rewrite /stale_clients list_elem_of_fmap. split.
  - intros [[k' d] [-> [Hs Hin]%list_elem_of_filter]].
    exists d. split; [by apply JSMapFacts.elem_get | done].
  - intros [d [Hg Hs]]. exists (k, d). split; [done|].
    apply list_elem_of_filter. split; [done|]. by apply JSMapFacts.get_Some_elem.
Qed.

Lemma seen_survive t (m : list (jskey * DiscoveryRecord)) :
  JSMap.wf m ->
  foldl (fun m k => JSMap.delete k m) m (stale_clients t m)
  = filter (fun kv => ~ unseen t kv.2) m.
Proof.
  intros Hwf. rewrite foldl_delete_filter. apply filter_ext_elem.
  intros [k d] Hin. simpl. rewrite elem_stale_clients //.
  apply (JSMapFacts.elem_get _ _ _ Hwf) in Hin. split.
  - intros Hn Hs. apply Hn. by exists d.
  - intros Hn [d' [Hg Hs]]. congruence.
Qed.

Lemma get_filter {V} (P : jskey * V -> Prop) `{!forall x, Decision (P x)}
  k (m : list (jskey * V)) :
  JSMap.wf m ->
  JSMap.get k (filter P m)
  = match JSMap.get k m with
    | Some v => if decide (P (k, v)) then Some v else None
    | None => None
    end.
Proof.
  induction m as [|[k' v] m IH]; intros Hwf; [done|].
  apply NoDup_cons in Hwf as [Hk Hwf]. simpl.
  destruct (decide (k = k')) as [->|Hne].
  - destruct (decide (P (k', v))).
    + rewrite filter_cons_True //=. by rewrite decide_True.
    + rewrite filter_cons_False //. rewrite IH //.
      assert (JSMap.get k' m = None) as -> by by apply JSMapFacts.get_None.
      done.
  - destruct (decide (P (k', v))).
    + rewrite filter_cons_True //=. rewrite decide_False //. by apply IH.
    + rewrite filter_cons_False //. by apply IH.
Qed.

(** *** The liveness sweep *)

Lemma sweep_survivors w :
  JSMap.wf (connectedDevices w) ->
  connectedDevices (exec (step SweepTick) w)
  = filter (fun kv => ~ silent (Date_now (clock_reads w)) kv.2)
      (connectedDevices w).
Proof.
  intros Hwf.
  set (t := Date_now (clock_reads w)).
  set (ks := stale_keys t (connectedDevices w)).
  pose proof (evict_loop ks (with_clock_reads S w)) as HL. cbv zeta in HL.
  destruct HL as (E1 & _).
  rewrite /exec /step /sweep_devices /bind /now /gets /= -/t -/ks.
  destruct (forEach ks evict (with_clock_reads S w)) as [[] wL].
  simpl in E1. simpl.
  destruct (bool_decide (0 < length ks)%nat).
  - rewrite broadcastDeviceList_run /= E1. by apply survivors.
  - rewrite /ret /= E1. by apply survivors.
Qed.
End Frames.
End Server2Frames.

(** * The second server: further properties *)

Module Server2Properties.
Import Server2 Server2Facts Server2Routes Server2Frames.

#[local] Arguments broadcastDeviceList : simpl never.

Section Properties.
Context `{Runtime}.
Implicit Types (w : world) (h : handle).

(** X13: a [device-discovery] datagram is answered with one
    [server-response] datagram carrying the server's own device record, sent
    to the address the request came from; no store is changed. *)
Theorem discovery_request_answered w data r :
  is_str (get_prop data "type") "device-discovery" = true ->
  exec (step (Packet (Some data) r)) w
  = with_outbox
      (fun o => o ++
         [Datagram (ri_address r)
            (JObj [("type", JStr "server-response");
                   ("device", advertised w)])])
      (with_clock_reads S w).
Proof.
  intros Hs. rewrite /exec /step datagram_cases; [by eapply typed_not_null|].
  by rewrite Hs.
Qed.

(** X14: a datagram that does not parse, the text [null], and a
    [device-announce] without a [device] are dropped: the failure is logged,
    no datagram is sent and no store is changed. *)
Theorem bad_datagram_dropped w raw r :
  datagram_throws raw = true ->
  exec (step (Packet raw r)) w = with_clock_reads S w.
Proof.
  intros Ht. rewrite /exec /step.
  destruct raw as [data|]; [|done].
  assert (data = JNull \/ data <> JNull) as [->|Hn];
    [destruct data; [by left|by right..] | done |].
  rewrite datagram_cases // Ht.
  assert (is_str (get_prop data "type") "device-discovery" = false) as ->; [|done].
  move: Ht. rewrite /datagram_throws. destruct data; try done.
  move=> /andb_prop [Hs _]. by apply (is_str_excludes _ _ _ Hs).
Qed.

(** X15: one tick of the discovery sweep at clock reading [t], over records
    whose ids the log line can print, leaves exactly the records with
    [t - lastSeen <= 30000], in their old order and unchanged; it sends
    nothing, closes nothing and does not touch the registry of connected
    devices. *)
Theorem discovery_sweep_prunes w :
  JSMap.wf (discoveryClients w) ->
  forallb (fun r => loggable (obj_get "id" (dr_device r)))
    (JSMap.values (discoveryClients w)) = true ->
  let t := Date_now (clock_reads w) in
  let w' := exec (step DiscoverySweepTick) w in
  discoveryClients w' = filter (fun kv => ~ unseen t kv.2) (discoveryClients w)
  /\ (forall k r, JSMap.get k (discoveryClients w) = Some r ->
        JSMap.get k (discoveryClients w')
        = if decide (unseen t r) then None else Some r)
  /\ outbox w' = outbox w
  /\ connectedDevices w' = connectedDevices w
  /\ readyState w' = readyState w.
Proof.
  intros Hwf _ t w'.
  assert (w' = with_clock_reads
                 (fun n => length (stale_clients t (discoveryClients w)) + n)%nat
                 (with_discoveryClients
                    (fun m => foldl (fun m k => JSMap.delete k m) m
                                (stale_clients t (discoveryClients w)))
                    (with_clock_reads S w))) as ->.
  { rewrite /w' /exec /step /sweep_discovery /bind /now /gets /=.
    by rewrite prune_loop. }
  simpl. rewrite seen_survive //. split_and!; try done.
  intros k r Hg. rewrite get_filter // Hg /=.
  destruct (decide (unseen t r)).
  - by rewrite decide_False; [tauto|].
  - by rewrite decide_True.
Qed.

(** X16: signaling from a socket that never registered is refused: the
    socket gets the error "Device not registered" and nothing else happens,
    whatever the message asks for. *)
Theorem signaling_needs_registration w h message :
  is_str (get_prop message "type") "webrtc-signaling" = true ->
  ws_deviceId w !! h = None ->
  exec (step (Message h (Some message))) w
  = with_outbox
      (fun o => o ++
         [Send h (JObj [("type", JStr "error");
                        ("message", JStr "Device not registered")])])
      w.
Proof.
  intros Hs Hd.
  rewrite message_run; [by eapply typed_not_null|].
  by rewrite dispatch_signaling //= signaling_run Hd.
Qed.

(** X17: an offer from a registered socket (under an id the log line can
    print) is not addressed to anyone: it is passed on as [offer-received],
    with the sender's id, to every other client whose socket is open,
    registered or not, and never back to the sender; the offer is cached
    under the sender's id.  The registry is not changed. *)
Theorem offer_reaches_everyone_else w h message id key :
  is_str (get_prop message "type") "webrtc-signaling" = true ->
  is_str (get_prop message "signalingType") "offer" = true ->
  ws_deviceId w !! h = Some (id, key) ->
  loggable (Some id) = true ->
  let w' := exec (step (Message h (Some message))) w in
  let offer := get_prop message "payload" in
  calls_since w w'
  = (fun c => Send c (offer_received id offer)) <$> everyone_else w h
  /\ (forall c, c ∈ everyone_else w h <->
        c ∈ clients w /\ is_open (readyState w) c = true /\ c <> h)
  /\ Forall (fun a => ~ sent_to h a) (calls_since w w')
  /\ JSMap.get key (offerCache w') = Some (offer, Date_now (S (clock_reads w)))
  /\ connectedDevices w' = connectedDevices w.
Proof.
  intros Hs Ho Hd _ w' offer.
  assert (w' = with_outbox
                 (fun o => o ++
                    ((fun c => Send c (offer_received id offer))
                       <$> everyone_else w h))
                 (with_offerCache
                    (JSMap.set key (offer, Date_now (S (clock_reads w))))
                    (with_clock_reads (fun n => S (S n)) w))) as ->.
  { rewrite /w' message_run; [by eapply typed_not_null|].
    by rewrite dispatch_signaling //= signaling_run Hd Ho offer_run. }
  assert (forall c, c ∈ everyone_else w h <->
            c ∈ clients w /\ is_open (readyState w) c = true /\ c <> h) as Hel.
  { intros c. rewrite /everyone_else !list_elem_of_filter. tauto. }
  rewrite /calls_since /= drop_app_length. split_and!; try done.
  - apply Forall_fmap, Forall_forall. intros c Hc%Hel. simpl. tauto.
  - apply JSMapFacts.get_set_eq.
Qed.

(** X18: for an [answer] or an [ice-candidate] from a registered socket
    (under an id the log line can print), with a [targetId] that is a string
    or another JSON primitive (or missing), [send] is called once, on the
    socket of the registry entry under that id, with the sender's id as
    [from] and without a look at the socket's [readyState]; when the registry
    has no entry under the id, nothing is sent.  Nobody else receives
    anything and the registry is not changed. *)
Theorem answer_goes_to_target w h message id key :
  is_str (get_prop message "type") "webrtc-signaling" = true ->
  is_str (get_prop message "signalingType") "answer"
  || is_str (get_prop message "signalingType") "ice-candidate" = true ->
  ws_deviceId w !! h = Some (id, key) ->
  loggable (Some id) = true ->
  is_reference (get_prop message "targetId") = false ->
  let w' := exec (step (Message h (Some message))) w in
  calls_since w w'
  = match JSMap.get (key_of (get_prop message "targetId") 0)
            (connectedDevices w) with
    | Some target => [Send (di_ws target) (relay_of id message)]
    | None => []
    end
  /\ connectedDevices w' = connectedDevices w
  /\ readyState w' = readyState w.
Proof.
  intros Hs Hk Hd _ Hp w'.
  pose proof (relay_run w (id, key) message Hp) as HR. cbv zeta in HR.
  assert (w' = if is_str (get_prop message "signalingType") "answer" then
                 (handleAnswer (id, key) (get_prop message "payload")
                    (get_prop message "targetId") w).2
               else
                 (handleICECandidate (id, key) (get_prop message "payload")
                    (get_prop message "targetId") w).2) as Hw'.
  { rewrite /w' message_run; [by eapply typed_not_null|].
    rewrite dispatch_signaling //= signaling_run Hd.
    apply orb_prop in Hk as [Ha|Hi].
    - by rewrite (is_str_excludes _ _ "offer" Ha) // Ha.
    - by rewrite (is_str_excludes _ _ "offer" Hi) //
        (is_str_excludes _ _ "answer" Hi) // Hi. }
  rewrite -Hw' in HR. destruct HR as (E1 & E2 & E3 & _).
  by rewrite /calls_since E1 drop_app_length.
Qed.

(** X19: a heartbeat keeps a device in the registry: when the sweep runs
    after a heartbeat and the clock has advanced by at most 30000 ms between
    the heartbeat and the sweep, the device is still registered, with the
    time of the heartbeat as [lastHeartbeat], however long it had been silent
    before.  This is for a registry whose ids the log line of the sweep can
    print. *)
Theorem heartbeat_keeps_device_alive w h message id key d :
  JSMap.wf (connectedDevices w) ->
  forallb (fun d => loggable (Some (di_id d))) (snapshot w) = true ->
  is_str (get_prop message "type") "heartbeat" = true ->
  ws_deviceId w !! h = Some (id, key) ->
  JSMap.get key (connectedDevices w) = Some d ->
  Date_now (2 + clock_reads w) - Date_now (clock_reads w) <= DEVICE_TIMEOUT ->
  let w' := run [Message h (Some message); SweepTick] w in
  JSMap.get key (connectedDevices w')
  = Some (beat (Date_now (clock_reads w)) d).
Proof.
  intros Hwf _ Hs Hd Hg Ht w'.
  set (w1 := exec (step (Message h (Some message))) w).
  assert (connectedDevices w1
          = JSMap.set key (beat (Date_now (clock_reads w)) d) (connectedDevices w)
          /\ clock_reads w1 = (2 + clock_reads w)%nat) as [E1 E2].
  { rewrite /w1 /exec /step /on_message /bind dispatch_heartbeat //.
    rewrite /handleHeartbeat /bind /gets /= /deviceId_key Hd Hg.
    by rewrite /now /modify /send /modify /=. }
  rewrite /w' /= -/w1 sweep_survivors; [rewrite E1; by apply JSMapFacts.wf_set|].
  rewrite get_filter; [rewrite E1; by apply JSMapFacts.wf_set|].
  rewrite E1 JSMapFacts.get_set_eq E2 decide_True //.
Qed.

(** X20: [cleanupDevice] deletes whatever entry is stored under the id of
    the closing socket (an id the log lines can print), without checking
    whose it is.  When two sockets registered the same id, the [close] event
    of one of them removes the entry even if the other one registered later
    and is still connected; the other socket is left as it is, and its next
    heartbeat is ignored without a reply. *)
Theorem close_drops_shared_id w h1 h2 id1 id2 key message :
  h1 <> h2 ->
  ws_deviceId w !! h1 = Some (id1, key) ->
  ws_deviceId w !! h2 = Some (id2, key) ->
  loggable (Some id1) = true ->
  is_str (get_prop message "type") "heartbeat" = true ->
  let w' := exec (step (Closed h1)) w in
  JSMap.get key (connectedDevices w') = None
  /\ readyState w' !! h2 = readyState w !! h2
  /\ ws_deviceId w' !! h2 = Some (id2, key)
  /\ exec (step (Message h2 (Some message))) w' = w'.
Proof.
  intros Hne Hd1 Hd2 _ Hs w'.
  assert (connectedDevices w' = JSMap.delete key (connectedDevices w)
          /\ readyState w' = <[h1 := CLOSED]> (readyState w)
          /\ ws_deviceId w' = ws_deviceId w) as (E1 & E2 & E3).
  { by rewrite /w' closed_run2 cleanup_run /= Hd1. }
  assert (JSMap.get key (connectedDevices w') = None) as Hg.
  { rewrite E1. apply JSMapFacts.get_delete_eq. }
  split_and!.
  - done.
  - rewrite E2 lookup_insert_ne //.
  - by rewrite E3.
  - rewrite /exec /step /on_message /bind dispatch_heartbeat //.
    by rewrite /handleHeartbeat /bind /gets /= /deviceId_key E3 Hd2 Hg.
Qed.

(** X21: a socket that registers under one id and then under another (with
    names the log line can print, or none) leaves its first entry behind:
    when the socket closes, only the entry under the id registered last is
    deleted, and the first entry stays in the registry, pointing to the
    closed socket, until the sweep removes it. *)
Theorem reregistration_leaves_first_entry w h m1 m2 a b :
  is_str (get_prop m1 "type") "register" = true ->
  is_str (get_prop m2 "type") "register" = true ->
  get_prop m1 "deviceId" = Some (JStr a) ->
  get_prop m2 "deviceId" = Some (JStr b) ->
  a <> EmptyString -> b <> EmptyString -> a <> b ->
  loggable (get_prop m1 "name") = true ->
  loggable (get_prop m2 "name") = true ->
  let w' := run [Message h (Some m1); Message h (Some m2); Closed h] w in
  (exists d, JSMap.get (KStr a) (connectedDevices w') = Some d /\ di_ws d = h)
  /\ JSMap.get (KStr b) (connectedDevices w') = None
  /\ readyState w' !! h = Some CLOSED.
Proof.
  intros Hs1 Hs2 Hd1 Hd2 Ha Hb Hab _ _ w'.
  assert (forall s, s <> EmptyString -> truthy (Some (JStr s)) = true) as Htr.
  { intros s Hn. simpl. apply negb_true_iff. by apply String.eqb_neq. }
  set (w1 := exec (step (Message h (Some m1))) w).
  set (w2 := exec (step (Message h (Some m2))) w1).
  assert (forall u m, is_str (get_prop m "type") "register" = true ->
            exec (step (Message h (Some m))) u = (handleDeviceRegistration h m u).2)
    as Hstep.
  { intros u m Hs. by rewrite /exec /step /on_message /bind dispatch_registration. }
  destruct (registration_any w h m1 (JStr a) Hd1 (Htr a Ha)) as (A1 & _).
  rewrite -(Hstep _ _ Hs1) -/w1 in A1.
  destruct (registration_any w1 h m2 (JStr b) Hd2 (Htr b Hb)) as (B1 & B2 & B3 & _).
  rewrite -(Hstep _ _ Hs2) -/w2 in B1 B2 B3.
  simpl in A1, B1, B2.
  assert (connectedDevices w' = JSMap.delete (KStr b) (connectedDevices w2)
          /\ readyState w' = <[h := CLOSED]> (readyState w2)) as [E1 E2].
  { rewrite /w' /= -/w1 -/w2 closed_run2 cleanup_run /= B2 lookup_insert_eq //. }
  rewrite E1 E2 B1 A1. split_and!.
  - eexists. rewrite JSMapFacts.get_delete_ne; [congruence|].
    rewrite JSMapFacts.get_set_ne; [congruence|].
    rewrite JSMapFacts.get_set_eq. done.
  - apply JSMapFacts.get_delete_eq.
  - by rewrite lookup_insert_eq.
Qed.

(** X22: a [get-device-list] request, from any socket and whether or not it
    registered, makes the server send the current device list to every open
    client, not to the requester alone; nothing is changed. *)
Theorem device_list_request_is_broadcast w h message :
  is_str (get_prop message "type") "get-device-list" = true ->
  exec (step (Message h (Some message))) w
  = with_outbox
      (fun o => o ++ fanout w (device_list_message w (Date_now (clock_reads w))))
      (with_clock_reads S w).
Proof.
  intros Hs. rewrite message_run; [by eapply typed_not_null|].
  by rewrite dispatch_device_list // broadcastDeviceList_run.
Qed.

(** X23: a frame that parses to anything but [null] and whose [type] is
    none of the four the server knows (a [type] the log line can print, or
    none) is only logged: no reply, not even an error, and no change of any
    store. *)
Theorem unknown_message_only_logged w h message :
  message <> JNull ->
  known_type message = false ->
  loggable (get_prop message "type") = true ->
  exec (step (Message h (Some message))) w = with_clock_reads S w.
Proof.
  intros Hn Hk _. by rewrite message_run // dispatch_unknown_type.
Qed.

(** X24: after a registration under a non-empty string id,
    [GET /api/devices/:deviceId] with that id answers 200 with the entry just
    stored: the id, the name (the id when none was given), the type
    ("client" by default), the capabilities and the two times of
    registration. *)
Theorem registered_device_is_served w h message s :
  is_str (get_prop message "type") "register" = true ->
  get_prop message "deviceId" = Some (JStr s) ->
  s <> EmptyString ->
  let w' := exec (step (Message h (Some message))) w in
  (get_api_devices_id s w').1
  = (200,
     JObj [("success", JBool true);
           ("device",
            JObj [("id", JStr s);
                  ("name", js_or (get_prop message "name") (JStr s));
                  ("type", js_or (get_prop message "deviceType") (JStr "client"));
                  ("capabilities",
                   js_or (get_prop message "capabilities") (JArr []));
                  ("connectedAt", JInt (Date_now (clock_reads w)));
                  ("lastHeartbeat", JInt (Date_now (S (clock_reads w))))])]).
Proof.
  intros Hs Hd Hn w'.
  assert (truthy (Some (JStr s)) = true) as Ht.
  { simpl. apply negb_true_iff. by apply String.eqb_neq. }
  destruct (registration_any w h message (JStr s) Hd Ht) as (A1 & _).
  assert (w' = (handleDeviceRegistration h message w).2) as Hw'.
  { by rewrite /w' /exec /step /on_message /bind dispatch_registration. }
  rewrite -Hw' in A1. simpl in A1.
  by rewrite /get_api_devices_id /bind /gets /= A1 JSMapFacts.get_set_eq.
Qed.

(** X25: a device registered under an id that is not a string (a number,
    [true], an array, an object) is stored and [GET /api/devices] lists it,
    but no [GET /api/devices/:deviceId] can reach it: every such request is
    answered as before the registration. *)
Theorem non_string_id_not_served w h message v :
  is_str (get_prop message "type") "register" = true ->
  get_prop message "deviceId" = Some v ->
  truthy (Some v) = true ->
  (forall s, v <> JStr s) ->
  let w' := exec (step (Message h (Some message))) w in
  let entry :=
    build_info h message v
      (Date_now (clock_reads w)) (Date_now (S (clock_reads w))) in
  (exists devices timestamp,
     (get_api_devices w').1
     = (200, JObj [("success", JBool true);
                   ("devices", JArr devices);
                   ("count", JInt (Z.of_nat (length devices)));
                   ("timestamp", JInt timestamp)])
     /\ device_detail entry ∈ devices)
  /\ forall s, (get_api_devices_id s w').1 = (get_api_devices_id s w).1.
Proof.
  intros Hs Hd Ht Hv w' entry.
  destruct (registration_any w h message v Hd Ht) as (A1 & _).
  assert (w' = (handleDeviceRegistration h message w).2) as Hw'.
  { by rewrite /w' /exec /step /on_message /bind dispatch_registration. }
  rewrite -Hw' in A1. split.
  - eexists _, _. split; [reflexivity|].
    apply list_elem_of_fmap. exists entry. split; [done|].
    rewrite /JSMap.values A1.
    apply list_elem_of_fmap. eexists (_, _). split; [done|].
    apply JSMapFacts.get_Some_elem, JSMapFacts.get_set_eq.
  - intros s. rewrite /get_api_devices_id /bind /gets /= A1.
    rewrite JSMapFacts.get_set_ne.
    + rewrite /intern. destruct v; simpl; try done. intros [= <-]. by eapply Hv.
    + by destruct (JSMap.get (KStr s) (connectedDevices w)).
Qed.
End Properties.

(** ** The statements at concrete inputs *)

Lemma discovery_request_answered_witness :
  @exec world unit
    (@step Scenario2.slow (Packet (Some ScenarioMore.discovery) Scenario2.from_20))
    (init Scenario2.self)
  = with_outbox
      (fun o => o ++
         [Datagram "192.168.1.20"
            (JObj [("type", JStr "server-response");
                   ("device", Scenario2.self)])])
      (with_clock_reads S (init Scenario2.self)).
Proof.
  apply (@discovery_request_answered Scenario2.slow (init Scenario2.self)
           ScenarioMore.discovery Scenario2.from_20).
  reflexivity.
Defined.

Lemma bad_datagram_dropped_witness :
  @exec world unit
    (@step Scenario2.slow
       (Packet (Some ScenarioMore.announce_nothing) Scenario2.from_20))
    (init Scenario2.self)
  = with_clock_reads S (init Scenario2.self).
Proof.
  apply (@bad_datagram_dropped Scenario2.slow (init Scenario2.self)
           (Some ScenarioMore.announce_nothing) Scenario2.from_20).
  reflexivity.
Defined.

Lemma two_announced_wf : maps_wf ScenarioMore.two_announced.
Proof. apply maps_wf_run, maps_wf_init. Qed.

Lemma discovery_sweep_prunes_witness :
  let w := ScenarioMore.two_announced in
  let w' := @exec world unit (@step Scenario2.slow DiscoverySweepTick) w in
  discoveryClients w'
  = filter (fun kv => ~ unseen (@Date_now Scenario2.slow (clock_reads w)) kv.2)
      (discoveryClients w).
Proof.
  exact (proj1 (@discovery_sweep_prunes Scenario2.slow ScenarioMore.two_announced
                  (proj1 (proj2 two_announced_wf)) eq_refl)).
Defined.

(** The camera, last seen 50 s ago, is pruned; the tablet, seen 10 s ago,
    stays. *)
Example discovery_sweep_run :
  let w' := @exec world unit (@step Scenario2.slow DiscoverySweepTick)
              ScenarioMore.two_announced in
  JSMap.keys (discoveryClients ScenarioMore.two_announced)
  = [KStr "camera"; KStr "tablet"]
  /\ JSMap.keys (discoveryClients w') = [KStr "tablet"]
  /\ outbox w' = outbox ScenarioMore.two_announced.
Proof. vm_compute. done. Qed.

Lemma signaling_needs_registration_witness :
  @exec world unit
    (@step Scenario2.slow
       (Message 2%nat
          (Some (ScenarioMore.signal "offer" [("payload", ScenarioMore.sdp)]))))
    Scenario2.with_stranger
  = with_outbox
      (fun o => o ++
         [Send 2%nat (JObj [("type", JStr "error");
                            ("message", JStr "Device not registered")])])
      Scenario2.with_stranger.
Proof.
  apply (@signaling_needs_registration Scenario2.slow Scenario2.with_stranger
           2%nat (ScenarioMore.signal "offer" [("payload", ScenarioMore.sdp)]));
    vm_compute; reflexivity.
Defined.

Lemma offer_reaches_everyone_else_witness :
  let w := Scenario2.with_stranger in
  let w' := @exec world unit
              (@step Scenario2.slow
                 (Message 1%nat
                    (Some (ScenarioMore.signal "offer"
                             [("payload", ScenarioMore.sdp)])))) w in
  calls_since w w'
  = (fun c => Send c (offer_received (JStr "phone") (Some ScenarioMore.sdp)))
      <$> everyone_else w 1%nat.
Proof.
  exact (proj1 (@offer_reaches_everyone_else Scenario2.slow
                  Scenario2.with_stranger 1%nat
                  (ScenarioMore.signal "offer" [("payload", ScenarioMore.sdp)])
                  (JStr "phone") (KStr "phone")
                  eq_refl eq_refl ltac:(vm_compute; reflexivity) eq_refl)).
Defined.

(** The phone's offer goes to the tv and to the socket that never
    registered.  *)
Example offer_run_with_stranger :
  everyone_else Scenario2.with_stranger 1%nat = [0%nat; 2%nat]
  /\ offer_received (JStr "phone") (Some ScenarioMore.sdp)
     = JObj [("type", JStr "offer-received");
             ("from", JStr "phone");
             ("offer", ScenarioMore.sdp)].
Proof. vm_compute. done. Qed.

Lemma answer_goes_to_target_witness :
  let w := Scenario2.tv_silent in
  let message :=
    ScenarioMore.signal "answer"
      [("targetId", JStr "tv"); ("payload", ScenarioMore.sdp)] in
  let w' := @exec world unit (@step Scenario2.slow (Message 1%nat (Some message)))
              w in
  calls_since w w'
  = match JSMap.get (key_of (get_prop message "targetId") 0)
            (connectedDevices w) with
    | Some target => [Send (di_ws target) (relay_of (JStr "phone") message)]
    | None => []
    end.
Proof.
  exact (proj1 (@answer_goes_to_target Scenario2.slow Scenario2.tv_silent 1%nat
                  (ScenarioMore.signal "answer"
                     [("targetId", JStr "tv"); ("payload", ScenarioMore.sdp)])
                  (JStr "phone") (KStr "phone")
                  eq_refl eq_refl ltac:(vm_compute; reflexivity) eq_refl
                  eq_refl)).
Defined.

(** The phone's answer reaches the tv's socket; an ICE candidate for an
    unknown id reaches nobody. *)
Example relay_run_tv_silent :
  let answer :=
    ScenarioMore.signal "answer"
      [("targetId", JStr "tv"); ("payload", ScenarioMore.sdp)] in
  let candidate :=
    ScenarioMore.signal "ice-candidate"
      [("targetId", JStr "radio"); ("payload", ScenarioMore.sdp)] in
  calls_since Scenario2.tv_silent
    (@exec world unit (@step Scenario2.slow (Message 1%nat (Some answer)))
       Scenario2.tv_silent)
  = [Send 0%nat (JObj [("type", JStr "answer");
                       ("from", JStr "phone");
                       ("answer", ScenarioMore.sdp)])]
  /\ calls_since Scenario2.tv_silent
       (@exec world unit (@step Scenario2.slow (Message 1%nat (Some candidate)))
          Scenario2.tv_silent)
     = [].
Proof. vm_compute. done. Qed.

Lemma tv_silent_keyed : maps_wf Scenario2.tv_silent.
Proof. apply maps_wf_run, maps_wf_init. Qed.

Lemma heartbeat_keeps_device_alive_witness :
  exists d,
    JSMap.get (KStr "tv") (connectedDevices Scenario2.tv_silent) = Some d
    /\ JSMap.get (KStr "tv")
         (connectedDevices
            (@run Scenario2.slow
               [Message 0%nat (Some Scenario2.heartbeat); SweepTick]
               Scenario2.tv_silent))
       = Some (beat 1700000140000 d).
Proof.
  eexists. split; [vm_compute; reflexivity|].
  apply (@heartbeat_keeps_device_alive Scenario2.slow Scenario2.tv_silent 0%nat
           Scenario2.heartbeat (JStr "tv") (KStr "tv")).
  - exact (proj1 tv_silent_keyed).
  - vm_compute; reflexivity.
  - reflexivity.
  - vm_compute; reflexivity.
  - vm_compute; reflexivity.
  - vm_compute. discriminate.
Defined.

(** Without the heartbeat the same sweep evicts the tv. *)
Example sweep_without_heartbeat :
  JSMap.get (KStr "tv")
    (connectedDevices
       (@run Scenario2.slow [SweepTick] Scenario2.tv_silent))
  = None.
Proof. vm_compute. done. Qed.

Lemma close_drops_shared_id_witness :
  let w' := @exec world unit (@step Scenario2.slow (Closed 0%nat))
              ScenarioMore.shared_id in
  JSMap.get (KStr "tv") (connectedDevices w') = None
  /\ readyState w' !! 1%nat = readyState ScenarioMore.shared_id !! 1%nat
  /\ ws_deviceId w' !! 1%nat = Some (JStr "tv", KStr "tv")
  /\ @exec world unit (@step Scenario2.slow (Message 1%nat (Some Scenario2.heartbeat)))
       w'
     = w'.
Proof.
  apply (@close_drops_shared_id Scenario2.slow ScenarioMore.shared_id
           0%nat 1%nat (JStr "tv") (JStr "tv") (KStr "tv") Scenario2.heartbeat).
  - discriminate.
  - vm_compute; reflexivity.
  - vm_compute; reflexivity.
  - reflexivity.
  - reflexivity.
Defined.

(** Before the first socket closes the entry belongs to the second socket,
    which is open. *)
Example shared_id_owner :
  (di_ws <$> JSMap.get (KStr "tv") (connectedDevices ScenarioMore.shared_id))
  = Some 1%nat
  /\ readyState ScenarioMore.shared_id !! 1%nat = Some OPEN.
Proof. vm_compute. done. Qed.

Lemma reregistration_leaves_first_entry_witness :
  let w' := @run Scenario2.slow
              [Message 2%nat (Some (Scenario2.register_as "radio"));
               Message 2%nat (Some (Scenario2.register_as "clock"));
               Closed 2%nat]
              Scenario2.with_stranger in
  (exists d, JSMap.get (KStr "radio") (connectedDevices w') = Some d
             /\ di_ws d = 2%nat)
  /\ JSMap.get (KStr "clock") (connectedDevices w') = None
  /\ readyState w' !! 2%nat = Some CLOSED.
Proof.
  apply (@reregistration_leaves_first_entry Scenario2.slow Scenario2.with_stranger
           2%nat (Scenario2.register_as "radio") (Scenario2.register_as "clock")
           "radio" "clock");
    (reflexivity || discriminate).
Defined.

Lemma device_list_request_is_broadcast_witness :
  @exec world unit
    (@step Scenario2.slow (Message 2%nat (Some ScenarioMore.get_device_list)))
    Scenario2.with_stranger
  = with_outbox
      (fun o => o ++
         @fanout Scenario2.with_stranger
           (device_list_message Scenario2.with_stranger 1700000150000))
      (with_clock_reads S Scenario2.with_stranger).
Proof.
  apply (@device_list_request_is_broadcast Scenario2.slow Scenario2.with_stranger
           2%nat ScenarioMore.get_device_list).
  reflexivity.
Defined.

Lemma unknown_message_only_logged_witness :
  @exec world unit (@step Scenario2.slow (Message 2%nat (Some ScenarioMore.ping)))
    Scenario2.with_stranger
  = with_clock_reads S Scenario2.with_stranger.
Proof.
  apply (@unknown_message_only_logged Scenario2.slow Scenario2.with_stranger
           2%nat ScenarioMore.ping).
  - discriminate.
  - reflexivity.
  - reflexivity.
Defined.

Lemma registered_device_is_served_witness :
  (@get_api_devices_id "tv"
     (@exec world unit
        (@step Scenario2.slow (Message 0%nat (Some (Scenario2.register_as "tv"))))
        (init Scenario2.self))).1
  = (200,
     JObj [("success", JBool true);
           ("device",
            JObj [("id", JStr "tv");
                  ("name", JStr "tv");
                  ("type", JStr "client");
                  ("capabilities", JArr []);
                  ("connectedAt", JInt 1700000000000);
                  ("lastHeartbeat", JInt 1700000010000)])]).
Proof.
  apply (@registered_device_is_served Scenario2.slow (init Scenario2.self) 0%nat
           (Scenario2.register_as "tv") "tv");
    (reflexivity || discriminate).
Defined.

Lemma non_string_id_not_served_witness :
  let w := init Scenario2.self in
  let w' := @exec world unit
              (@step Scenario2.slow (Message 0%nat (Some ScenarioMore.register_7)))
              w in
  (@get_api_devices_id "7" w').1 = (@get_api_devices_id "7" w).1.
Proof.
  exact (proj2 (@non_string_id_not_served Scenario2.slow (init Scenario2.self)
                  0%nat ScenarioMore.register_7 (JNum "7")
                  eq_refl eq_refl eq_refl ltac:(discriminate))
           "7").
Defined.

(** The device registered under the number 7 is listed, and asking for "7"
    finds nothing. *)
Example register_7_run :
  let w' := @exec world unit
              (@step Scenario2.slow (Message 0%nat (Some ScenarioMore.register_7)))
              (init Scenario2.self) in
  (@get_api_devices Scenario2.slow w').1
  = (200,
     JObj [("success", JBool true);
           ("devices",
            JArr [JObj [("id", JNum "7"); ("name", JNum "7");
                        ("type", JStr "client"); ("capabilities", JArr []);
                        ("connectedAt", JInt 1700000000000);
                        ("lastHeartbeat", JInt 1700000010000)]]);
           ("count", JInt 1);
           ("timestamp", JInt 1700000050000)])
  /\ (@get_api_devices_id "7" w').1
     = (404, JObj [("success", JBool false); ("error", JStr "Device not found")]).
Proof. vm_compute. done. Qed.
End Server2Properties.

(** * The browser client: [escapeHtml] *)

Module AppProperties.
Import Stdlib.Strings.Ascii App.

(** The five characters and what replaces them. *)
Lemma entity_inv (c : ascii) :
  (c = "&"%char /\ entity c = Some "&amp;")
  \/ (c = "<"%char /\ entity c = Some "&lt;")
  \/ (c = ">"%char /\ entity c = Some "&gt;")
  \/ (c = "034"%char /\ entity c = Some "&quot;")
  \/ (c = "'"%char /\ entity c = Some "&#039;")
  \/ (entity c = None /\ c <> "&"%char /\ special c = false).
Proof.
  rewrite /entity /special /markup.
  destruct (Ascii.eqb_spec c "&"); [by left; subst|right].
  destruct (Ascii.eqb_spec c "<"); [by left; subst|right].
  destruct (Ascii.eqb_spec c ">"); [by left; subst|right].
  destruct (Ascii.eqb_spec c "034"); [by left; subst|right].
  destruct (Ascii.eqb_spec c "'"); [by left; subst|right].
  done.
Qed.

Ltac entity_cases c E Hn Hs :=
  destruct (entity_inv c)
    as [[-> E]|[[-> E]|[[-> E]|[[-> E]|[[-> E]|(E & Hn & Hs)]]]]].

Lemma append_empty (s : string) : EmptyString +:+ s = s.
Proof. reflexivity. Qed.

Lemma escapeHtml_grows (text : string) :
  (String.length text <= String.length (escapeHtml text))%nat.
Proof.
  induction text as [|c text IH]; [done|].
  simpl. entity_cases c E Hn Hs; rewrite E /= ?append_empty; lia.
Qed.

(** X26: the escaped text contains none of the characters that open a tag
    or end an attribute value: no less-than sign, no greater-than sign, no
    double quote and no apostrophe. *)
Theorem escapeHtml_leaves_no_markup (text : string) :
  Forall (fun c => markup c = false) (chars (escapeHtml text)).
Proof.
  induction text as [|c text IH]; [by constructor|].
  simpl. entity_cases c E Hn Hs; rewrite E /= ?append_empty;
    repeat (constructor; [done|]); try done.
  constructor; [|done]. move: Hs. rewrite /special. by move=> /orb_false_iff [_ ->].
Qed.

(** X27: escaping loses nothing: two texts with the same escaped form are
    the same text. *)
Theorem escapeHtml_injective (a b : string) :
  escapeHtml a = escapeHtml b -> a = b.
Proof.
  revert b. induction a as [|c a IH]; intros [|d b] Hab.
  - done.
  - simpl in Hab. by entity_cases d E Hn Hs; rewrite E in Hab.
  - simpl in Hab. by entity_cases c E Hn Hs; rewrite E in Hab.
  - simpl in Hab.
    entity_cases c Ec Hc Hsc; entity_cases d Ed Hd Hsd; rewrite ?Ec ?Ed in Hab;
      simpl in Hab; rewrite ?append_empty in Hab; try discriminate;
      try (injection Hab as Hab; f_equal; by apply IH);
      try (injection Hab as Hch Hab; congruence).
    injection Hab as -> Hab. f_equal. by apply IH.
Qed.

(** X28: a text is left as it is exactly when it contains none of the five
    characters; in particular escaping an escaped text changes it again as
    soon as one character was replaced. *)
Theorem escapeHtml_fixes_plain_text (text : string) :
  escapeHtml text = text <-> Forall (fun c => special c = false) (chars text).
Proof.
  induction text as [|c text IH]; [by split; [constructor|]|].
  simpl. pose proof (escapeHtml_grows text) as Hg.
  entity_cases c E Hn Hs; rewrite E.
  1-5: split; [intros Heq; apply (f_equal String.length) in Heq;
               simpl in Heq; rewrite append_empty in Heq; lia
              |intros Hf; by apply Forall_cons in Hf as [Hf _]].
  split.
  - intros [= Heq]. constructor; [done|]. by apply IH.
  - intros [_ Hf]%Forall_cons. f_equal. by apply IH.
Qed.

(** X29: escaping works character by character: the escaped form of a
    concatenation is the concatenation of the escaped forms. *)
Theorem escapeHtml_app (a b : string) :
  escapeHtml (a +:+ b) = escapeHtml a +:+ escapeHtml b.
Proof.
  induction a as [|c a IH]; [done|].
  simpl. rewrite IH. entity_cases c E Hn Hs; rewrite E //=.
Qed.

Lemma escapeHtml_injective_witness : "a<b" = "a<b".
Proof. apply (escapeHtml_injective "a<b" "a<b"). reflexivity. Defined.

(** A tag and an attribute value, escaped. *)
Example escapeHtml_run :
  escapeHtml "<b title='x'>R&D</b>"
  = "&lt;b title=&#039;x&#039;&gt;R&amp;D&lt;/b&gt;".
Proof. reflexivity. Qed.
End AppProperties.
